(** * add_files_to_xcode.py: patching an Xcode project descriptor

    A shallow embedding of [src/add_files_to_xcode.py].  Python strings are
    lists of characters, the two identifier dictionaries are finite maps, the
    regular expressions of the script are values of a small regex syntax run
    by a backtracking matcher with Python's priorities, and file access,
    printing and the entropy behind [uuid.uuid4] are threaded through an
    explicit world.

    A Python string is held as the bytes of its UTF-8 encoding, one [ascii]
    per byte.  Where Python counts characters ([len], slice bounds, the
    offsets of a match object) the model counts the bytes that start a
    character.  The patterns and the templates of the script are ASCII, and
    no byte of a multi-byte character is an ASCII byte, so a pattern matches
    at the same places on the bytes as on the characters.

    A file holds bytes.  The script opens its file in text mode: reading
    decodes the bytes (the locale's encoding is taken to be UTF-8, as on
    macOS where Xcode runs) and turns every line ending into a line feed;
    writing encodes, and on a POSIX system leaves line feeds as they are.
    Failures of the operating system other than a missing file and a path
    that names a directory (permissions, I/O errors) are outside the
    model. *)

From Stdlib Require Import NArith ZArith Ascii String Lia.
From Stdlib Require Import DecimalString.
From stdpp Require Import gmap strings list.

Local Open Scope nat_scope.

(** ** Text *)

Abbreviation text := (list ascii).

Definition str (s : string) : text := list_ascii_of_string s.

Definition TAB : ascii := ascii_of_nat 9.
Definition NL : ascii := ascii_of_nat 10.
Definition DQUOTE : ascii := ascii_of_nat 34.

Definition CR : ascii := ascii_of_nat 13.

(** A byte of the form 10xxxxxx continues a multi-byte character; every
    other byte starts a character. *)
Definition is_cont (c : ascii) : bool :=
  (128 <=? nat_of_ascii c) && (nat_of_ascii c <? 192).

(** The number of characters of a string. *)
Fixpoint char_count (s : text) : nat :=
  match s with
  | [] => 0
  | c :: s' => (if is_cont c then 0 else 1) + char_count s'
  end.

(** The number of bytes the first [n] characters of a string take. *)
Fixpoint byte_offset (n : nat) (s : text) : nat :=
  match s with
  | [] => 0
  | c :: s' =>
      if is_cont c then S (byte_offset n s')
      else match n with
           | O => 0
           | S n' => S (byte_offset n' s')
           end
  end.

(** The string is empty or begins with the first byte of a character. *)
Definition at_boundary (s : text) : Prop :=
  match s with
  | [] => True
  | c :: _ => is_cont c = false
  end.

(** The bytes of exactly one character: a byte that starts a character and
    the continuation bytes that follow it. *)
Definition one_char (ch : text) : Prop :=
  match ch with
  | [] => False
  | b :: conts => is_cont b = false /\ Forall (fun c => is_cont c = true) conts
  end.

(** Python's [len] returns an integer, the number of characters; slice
    bounds are integers too. *)
Definition len (s : text) : Z := Z.of_nat (char_count s).

(** A slice bound as Python normalises it: a negative bound counts from the
    end, and whatever falls outside [0, len s] is clamped. *)
Definition slice_index (s : text) (i : Z) : nat :=
  Z.to_nat (Z.min (len s) (if (i <? 0)%Z then Z.max 0 (len s + i) else i)).

(** [s[:i]] *)
Definition slice_to (s : text) (i : Z) : text :=
  take (byte_offset (slice_index s i) s) s.

(** [s[i:]] *)
Definition slice_from (s : text) (i : Z) : text :=
  drop (byte_offset (slice_index s i) s) s.

(** [''.join(parts)] *)
Definition join (parts : list text) : text := List.concat parts.

(** [str.upper] on the characters the script meets: the ASCII letters. *)
Definition upper_char (c : ascii) : ascii :=
  let n := nat_of_ascii c in
  if (97 <=? n) && (n <=? 122) then ascii_of_nat (n - 32) else c.

Definition upper (s : text) : text := map upper_char s.

(** ** The identifier generator *)

Module Uuid.

Local Open Scope N_scope.

(** [UUID(bytes=..., version=4)]: the variant bits are set to RFC 4122 and the
    version nibble to 4, exactly as [uuid.UUID.__init__] does. *)
Definition uuid4_int (r : N) : N :=
  let i := N.ldiff r (N.shiftl 0xc000 48) in
  let i := N.lor i (N.shiftl 0x8000 48) in
  let i := N.ldiff i (N.shiftl 0xf000 64) in
  N.lor i (N.shiftl 4 76).

Definition hex_digit (d : N) : ascii :=
  nth (N.to_nat d) (str "0123456789abcdef") "0"%char.

Fixpoint hex_digits_rev (fuel : nat) (n : N) : text :=
  match fuel with
  | O => []
  | S fuel' =>
      if n =? 0 then [] else hex_digit (n mod 16) :: hex_digits_rev fuel' (n / 16)
  end.

(** ['%x' % n] *)
Definition format_x (n : N) : text :=
  if n =? 0 then str "0" else rev (hex_digits_rev (N.size_nat n) n).

(** ['%032x' % n]: zero-padded on the left to at least 32 characters. *)
Definition format_032x (n : N) : text :=
  let d := format_x n in
  repeat "0"%char (32 - length d)%nat ++ d.

(** [UUID.hex] of [uuid.uuid4()], where [r] is the integer read big-endian
    from the sixteen bytes of [os.urandom(16)]. *)
Definition uuid4_hex (r : N) : text := format_032x (uuid4_int (r mod 2 ^ 128)).

(** The body of [generate_uuid] for one draw [r] of the entropy source:
    [''.join(f'{uuid.uuid4().hex}'.upper())[:24]].  Iterating a string yields
    its one-character substrings. *)
Definition token (r : N) : text :=
  slice_to (join (map (fun c => [c]) (upper (uuid4_hex r)))) 24.

(** The characters Xcode uses in an identifier. *)
Definition is_upper_hex (c : ascii) : bool :=
  let n := nat_of_ascii c in
  ((48 <=? n)%nat && (n <=? 57)%nat) || ((65 <=? n)%nat && (n <=? 70)%nat).

(** The digits of [n] in a fixed width, least significant first. *)
Fixpoint fixed_hex_rev (w : nat) (n : N) : text :=
  match w with
  | O => []
  | S w' => hex_digit (n mod 16) :: fixed_hex_rev w' (n / 16)
  end.

(** The value of an upper-case hexadecimal digit. *)
Definition hex_value (c : ascii) : N :=
  let n := nat_of_ascii c in
  N.of_nat (if (n <? 58)%nat then n - 48 else n - 55).

(** The 96 leading bits of the UUID made from the draw [r]: what the 24
    characters of the token spell. *)
Definition leading_bits (r : N) : N := uuid4_int (r mod 2 ^ 128) / 2 ^ 32.

End Uuid.

(** ** Regular expressions

    The fragment of Python's [re] syntax the script uses, and a backtracking
    matcher that tries alternatives in the order [re] does: a lazy star asks
    the rest of the pattern first, a greedy plus takes as many characters as
    it can and gives them back one at a time. *)

Module Re.

(** One-character matchers: [.] (with [re.DOTALL] it accepts every
    character, newline included) and bracket expressions. *)
Inductive cclass :=
| Dot
| Bracket (negated : bool) (ranges : list (ascii * ascii)).

Definition in_range (c : ascii) (r : ascii * ascii) : bool :=
  (nat_of_ascii r.1 <=? nat_of_ascii c) && (nat_of_ascii c <=? nat_of_ascii r.2).

Definition accepts (cl : cclass) (c : ascii) : bool :=
  match cl with
  | Dot => true
  | Bracket negated ranges => xorb negated (existsb (in_range c) ranges)
  end.

Inductive regex :=
| Lit (s : text)                  (* literal characters *)
| Exactly (n : nat) (cl : cclass) (* cl{n} *)
| LazyStar (cl : cclass)          (* cl*? *)
| GreedyPlus (cl : cclass)        (* cl+ *)
| Cat (r1 r2 : regex)             (* r1 r2 *)
| Group (i : nat) (r : regex).    (* ( r ), the i-th group *)

(** The matcher's position in the subject: the offset reached, in bytes,
    the text from there on, and the spans of the groups closed so far. *)
Record mstate := MState {
  pos : nat;
  rest : text;
  caps : gmap nat (nat * nat)
}.

(** A match object. *)
Record match_obj := Match {
  m_start : nat;
  m_stop : nat;
  m_groups : gmap nat (nat * nat)
}.

(** [m.end()] of a match in [subject]: the matcher counts bytes, Python
    reports the offset in characters. *)
Definition m_end (subject : text) (m : match_obj) : Z :=
  len (take (m_stop m) subject).

(** [m.end(i)]; [re] answers -1 for a group that took no part in the match. *)
Definition m_end_of (subject : text) (m : match_obj) (i : nat) : Z :=
  match m_groups m !! i with
  | Some (_, e) => len (take e subject)
  | None => (-1)%Z
  end.

(** [m.group(i)] of a match in [subject]. *)
Definition m_group (subject : text) (m : match_obj) (i : nat) : option text :=
  match m_groups m !! i with
  | Some (s, e) => Some (take (e - s) (drop s subject))
  | None => None
  end.

Fixpoint strip_prefix (l s : text) : option text :=
  match l, s with
  | [], _ => Some s
  | a :: l', b :: s' => if decide (a = b) then strip_prefix l' s' else None
  | _ :: _, [] => None
  end.

Section Matcher.
Context {R : Type}.
Variable cl : cclass.
Variable k : mstate -> option R.

Fixpoint exactly (n : nat) (p : nat) (s : text) (g : gmap nat (nat * nat))
  : option R :=
  match n with
  | O => k (MState p s g)
  | S n' =>
      match s with
      | c :: s' => if accepts cl c then exactly n' (S p) s' g else None
      | [] => None
      end
  end.

Fixpoint lazy_star (p : nat) (s : text) (g : gmap nat (nat * nat)) : option R :=
  match k (MState p s g) with
  | Some r => Some r
  | None =>
      match s with
      | c :: s' => if accepts cl c then lazy_star (S p) s' g else None
      | [] => None
      end
  end.

Fixpoint greedy_star (p : nat) (s : text) (g : gmap nat (nat * nat)) : option R :=
  match s with
  | c :: s' =>
      if accepts cl c then
        match greedy_star (S p) s' g with
        | Some r => Some r
        | None => k (MState p s g)
        end
      else k (MState p s g)
  | [] => k (MState p s g)
  end.

Definition greedy_plus (p : nat) (s : text) (g : gmap nat (nat * nat)) : option R :=
  match s with
  | c :: s' => if accepts cl c then greedy_star (S p) s' g else None
  | [] => None
  end.
End Matcher.

Fixpoint run {R : Type} (r : regex) (k : mstate -> option R) (st : mstate)
  : option R :=
  match r with
  | Lit l =>
      match strip_prefix l (rest st) with
      | Some s' => k (MState (pos st + length l) s' (caps st))
      | None => None
      end
  | Exactly n cl => exactly cl k n (pos st) (rest st) (caps st)
  | LazyStar cl => lazy_star cl k (pos st) (rest st) (caps st)
  | GreedyPlus cl => greedy_plus cl k (pos st) (rest st) (caps st)
  | Cat r1 r2 => run r1 (run r2 k) st
  | Group i r1 =>
      run r1
        (fun st' =>
           k (MState (pos st') (rest st') (<[i := (pos st, pos st')]> (caps st'))))
        st
  end.

(** The whole pattern tried at offset [p], where the subject continues with
    [s]. *)
Definition match_at (r : regex) (p : nat) (s : text) : option match_obj :=
  run r (fun st => Some (Match p (pos st) (caps st))) (MState p s ∅).

(** [re.search]: every offset from the left, the end of the subject
    included; the first offset with a match wins. *)
Fixpoint search_from (r : regex) (p : nat) (s : text) : option match_obj :=
  match match_at r p s with
  | Some m => Some m
  | None =>
      match s with
      | [] => None
      | _ :: s' => search_from r (S p) s'
      end
  end.

Definition search (r : regex) (subject : text) : option match_obj :=
  search_from r 0 subject.

End Re.

(** ** The four patterns of the script *)

Import Re.

Definition not_char (c : ascii) : cclass := Bracket true [(c, c)].

(** [[A-F0-9]] *)
Definition upper_hex : cclass :=
  Bracket false [("A"%char, "F"%char); ("0"%char, "9"%char)].

(** [(/\* Begin PBXFileReference section \*/.*?/\* End PBXFileReference section \*/)] *)
Definition file_ref_section_re : regex :=
  Group 1 (Cat (Lit (str "/* Begin PBXFileReference section */"))
          (Cat (LazyStar Dot)
               (Lit (str "/* End PBXFileReference section */")))).

(** [([A-F0-9]{24}) /\* Models \*/ = \{[^}]+children = \(([^)]+)\);] *)
Definition models_group_re : regex :=
  Cat (Group 1 (Exactly 24 upper_hex))
 (Cat (Lit (str " /* Models */ = {"))
 (Cat (GreedyPlus (not_char "}"))
 (Cat (Lit (str "children = ("))
 (Cat (Group 2 (GreedyPlus (not_char ")")))
      (Lit (str ");")))))).

(** [([A-F0-9]{24}) /\* Sources \*/ = \{[^}]+files = \(([^)]+)\);] *)
Definition sources_build_phase_re : regex :=
  Cat (Group 1 (Exactly 24 upper_hex))
 (Cat (Lit (str " /* Sources */ = {"))
 (Cat (GreedyPlus (not_char "}"))
 (Cat (Lit (str "files = ("))
 (Cat (Group 2 (GreedyPlus (not_char ")")))
      (Lit (str ");")))))).

(** [(/\* Begin PBXBuildFile section \*/.*?/\* End PBXBuildFile section \*/)] *)
Definition build_file_section_re : regex :=
  Group 1 (Cat (Lit (str "/* Begin PBXBuildFile section */"))
          (Cat (LazyStar Dot)
               (Lit (str "/* End PBXBuildFile section */")))).

(** ** The world of the script: files, console, entropy *)

Inductive exn :=
| FileNotFoundError (path : text)
| IsADirectoryError (path : text)
| UnicodeDecodeError
| KeyError (key : text).

Inductive outcome (A : Type) :=
| Returns (a : A)
| Raises (e : exn).
Arguments Returns {A} a.
Arguments Raises {A} e.

(** What a path names: a directory, or a regular file with its bytes. *)
Inductive node :=
| Directory
| File (content : text).

Record World := mkWorld {
  disk : gmap text node;   (* path -> what is there *)
  stdout : list text;      (* the lines printed so far *)
  entropy : nat -> N;      (* the successive values of os.urandom(16) *)
  drawn : nat              (* how many of them were consumed *)
}.

Definition M (A : Type) : Type := World -> outcome A * World.

Definition ret {A} (a : A) : M A := fun w => (Returns a, w).

Definition bind {A B} (m : M A) (f : A -> M B) : M B :=
  fun w =>
    match m w with
    | (Returns a, w') => f a w'
    | (Raises e, w') => (Raises e, w')
    end.

Notation "x <- m ;; k" := (bind m (fun x => k))
  (at level 100, m at next level, right associativity).
Notation "m ;;; k" := (bind m (fun _ => k))
  (at level 100, right associativity).

(** The byte lies between [lo] and [hi]. *)
Definition byte_in (lo hi : nat) (c : ascii) : bool :=
  (lo <=? nat_of_ascii c) && (nat_of_ascii c <=? hi).

(** Well-formed UTF-8, as the strict decoder of Python accepts it: no
    overlong form, no surrogate, nothing above U+10FFFF, no stray or missing
    continuation byte. *)
Fixpoint utf8_valid (s : text) : bool :=
  match s with
  | [] => true
  | b0 :: s1 =>
      if byte_in 0 127 b0 then utf8_valid s1
      else if byte_in 194 223 b0 then
        match s1 with
        | b1 :: s2 => byte_in 128 191 b1 && utf8_valid s2
        | _ => false
        end
      else if byte_in 224 239 b0 then
        match s1 with
        | b1 :: b2 :: s3 =>
            (if byte_in 224 224 b0 then byte_in 160 191 b1
             else if byte_in 237 237 b0 then byte_in 128 159 b1
             else byte_in 128 191 b1)
            && byte_in 128 191 b2 && utf8_valid s3
        | _ => false
        end
      else if byte_in 240 244 b0 then
        match s1 with
        | b1 :: b2 :: b3 :: s4 =>
            (if byte_in 240 240 b0 then byte_in 144 191 b1
             else if byte_in 244 244 b0 then byte_in 128 143 b1
             else byte_in 128 191 b1)
            && byte_in 128 191 b2 && byte_in 128 191 b3 && utf8_valid s4
        | _ => false
        end
      else false
  end.

(** Universal newlines, the default of a file opened for reading in text
    mode: a carriage return followed by a line feed, and a carriage return
    on its own, are read as one line feed. *)
Fixpoint universal_newlines (s : text) : text :=
  match s with
  | [] => []
  | c :: s' =>
      if decide (c = CR) then
        match s' with
        | c' :: s'' =>
            if decide (c' = NL) then NL :: universal_newlines s''
            else NL :: universal_newlines s'
        | [] => [NL]
        end
      else c :: universal_newlines s'
  end.

(** [with open(path, 'r') as f: f.read()] *)
Definition read_file (path : text) : M text :=
  fun w =>
    match disk w !! path with
    | None => (Raises (FileNotFoundError path), w)
    | Some Directory => (Raises (IsADirectoryError path), w)
    | Some (File bytes) =>
        if utf8_valid bytes then (Returns (universal_newlines bytes), w)
        else (Raises UnicodeDecodeError, w)
    end.

(** [with open(path, 'w') as f: f.write(content)] *)
Definition write_file (path content : text) : M unit :=
  fun w =>
    (Returns tt,
     mkWorld (<[path := File content]> (disk w)) (stdout w) (entropy w) (drawn w)).

Definition print (line : text) : M unit :=
  fun w =>
    (Returns tt, mkWorld (disk w) (stdout w ++ [line]) (entropy w) (drawn w)).

(** [d[key]] *)
Definition dict_get (d : gmap text text) (key : text) : M text :=
  fun w =>
    match d !! key with
    | Some v => (Returns v, w)
    | None => (Raises (KeyError key), w)
    end.

(** A [for] loop that appends one rendered item per element. *)
Fixpoint for_each {A} (body : text -> M A) (xs : list text) : M (list A) :=
  match xs with
  | [] => ret []
  | x :: xs' => a <- body x ;; l <- for_each body xs' ;; ret (a :: l)
  end.

(** [str(n)] for a length. *)
Definition decimal (n : nat) : text := str (NilEmpty.string_of_uint (Nat.to_uint n)).

(** ** The script *)

Definition generate_uuid : M text :=
  fun w =>
    (Returns (Uuid.token (entropy w (drawn w))),
     mkWorld (disk w) (stdout w) (entropy w) (S (drawn w))).

(** Lines 21-27: one identifier pair per element of [files_to_add], stored
    under the filename. *)
Fixpoint generate_ids (files_to_add : list text)
    (file_refs build_refs : gmap text text) : M (gmap text text * gmap text text) :=
  match files_to_add with
  | [] => ret (file_refs, build_refs)
  | filename :: files' =>
      r <- generate_uuid ;;
      b <- generate_uuid ;;
      generate_ids files' (<[filename := r]> file_refs) (<[filename := b]> build_refs)
  end.

(** The four record templates (lines 46, 70, 91 and 111). *)
Definition file_ref_line (file_ref filename : text) : text :=
  [TAB; TAB] ++ file_ref ++ str " /* " ++ filename
    ++ str " */ = {isa = PBXFileReference; lastKnownFileType = sourcecode.swift; path = "
    ++ filename ++ str "; sourceTree = " ++ [DQUOTE] ++ str "<group>" ++ [DQUOTE]
    ++ str "; };" ++ [NL].

Definition group_child_line (file_ref filename : text) : text :=
  [TAB; TAB; TAB; TAB] ++ file_ref ++ str " /* " ++ filename ++ str " */," ++ [NL].

Definition build_phase_line (build_ref filename : text) : text :=
  [TAB; TAB; TAB; TAB] ++ build_ref ++ str " /* " ++ filename
    ++ str " in Sources */," ++ [NL].

Definition build_file_line (build_ref file_ref filename : text) : text :=
  [TAB; TAB] ++ build_ref ++ str " /* " ++ filename
    ++ str " in Sources */ = {isa = PBXBuildFile; fileRef = " ++ file_ref
    ++ str " /* " ++ filename ++ str " */; };" ++ [NL].

(** [content[:pos] + ''.join(fragments) + content[pos:]] *)
Definition insert_at (content : text) (pos : Z) (fragments : list text) : text :=
  slice_to content pos ++ join fragments ++ slice_from content pos.

(** Lines 29-51: the file-reference section. *)
Definition insert_file_references (files_to_add : list text)
    (file_refs : gmap text text) (content : text) : M (option text) :=
  match search file_ref_section_re content with
  | None =>
      print (str "Error: Could not find PBXFileReference section") ;;;
      ret None
  | Some file_ref_section_match =>
      let file_ref_section := m_group content file_ref_section_match 1 in
      new_file_refs <-
        for_each (fun filename =>
                    file_ref <- dict_get file_refs filename ;;
                    ret (file_ref_line file_ref filename))
                 files_to_add ;;
      let file_ref_insert_pos :=
        (m_end content file_ref_section_match
         - len (str "/* End PBXFileReference section */" ++ [NL]))%Z in
      ret (Some (insert_at content file_ref_insert_pos new_file_refs))
  end.

(** Lines 53-75: the children of the Models group. *)
Definition insert_group_children (files_to_add : list text)
    (file_refs : gmap text text) (content : text) : M (option text) :=
  match search models_group_re content with
  | None =>
      print (str "Error: Could not find Models group") ;;;
      ret None
  | Some models_group_match =>
      let models_group_id := m_group content models_group_match 1 in
      let children_section := m_group content models_group_match 2 in
      new_children <-
        for_each (fun filename =>
                    file_ref <- dict_get file_refs filename ;;
                    ret (group_child_line file_ref filename))
                 files_to_add ;;
      let children_end_pos := m_end_of content models_group_match 2 in
      ret (Some (insert_at content children_end_pos new_children))
  end.

(** Lines 77-95: the files of the Sources build phase. *)
Definition insert_build_phase_files (files_to_add : list text)
    (build_refs : gmap text text) (content : text) : M (option text) :=
  match search sources_build_phase_re content with
  | None =>
      print (str "Error: Could not find Sources build phase") ;;;
      ret None
  | Some sources_build_phase_match =>
      new_build_files <-
        for_each (fun filename =>
                    build_ref <- dict_get build_refs filename ;;
                    ret (build_phase_line build_ref filename))
                 files_to_add ;;
      let files_end_pos := m_end_of content sources_build_phase_match 2 in
      ret (Some (insert_at content files_end_pos new_build_files))
  end.

(** Lines 97-115: the build-file section. *)
Definition insert_build_files (files_to_add : list text)
    (file_refs build_refs : gmap text text) (content : text) : M (option text) :=
  match search build_file_section_re content with
  | None =>
      print (str "Error: Could not find PBXBuildFile section") ;;;
      ret None
  | Some build_file_section_match =>
      new_pbx_build_files <-
        for_each (fun filename =>
                    build_ref <- dict_get build_refs filename ;;
                    file_ref <- dict_get file_refs filename ;;
                    ret (build_file_line build_ref file_ref filename))
                 files_to_add ;;
      let build_file_insert_pos :=
        (m_end content build_file_section_match
         - len (str "/* End PBXBuildFile section */" ++ [NL]))%Z in
      ret (Some (insert_at content build_file_insert_pos new_pbx_build_files))
  end.

(** A step that did not find its region ends the function with [False]. *)
Definition or_fail (step : M (option text)) (next : text -> M bool) : M bool :=
  found <- step ;;
  match found with
  | None => ret false
  | Some content => next content
  end.

Definition add_files_to_pbxproj (pbxproj_path : text) (files_to_add : list text)
  : M bool :=
  content <- read_file pbxproj_path ;;
  refs <- generate_ids files_to_add ∅ ∅ ;;
  let file_refs := refs.1 in
  let build_refs := refs.2 in
  or_fail (insert_file_references files_to_add file_refs content) (fun content =>
  or_fail (insert_group_children files_to_add file_refs content) (fun content =>
  or_fail (insert_build_phase_files files_to_add build_refs content) (fun content =>
  or_fail (insert_build_files files_to_add file_refs build_refs content) (fun content =>
    write_file pbxproj_path content ;;;
    print (str "Successfully added " ++ decimal (length files_to_add)
             ++ str " files to Xcode project") ;;;
    ret true)))).

(** The [__main__] block.  The two marks are the UTF-8 bytes of U+2705 and
    U+274C. *)
Definition pbxproj_path : text := str "WigiAI.xcodeproj/project.pbxproj".
Definition files_to_add : list text :=
  [str "Activity.swift"; str "ActivityMigration.swift"].

Definition CHECK_MARK : text := map ascii_of_nat [226; 156; 133].
Definition CROSS_MARK : text := map ascii_of_nat [226; 157; 140].

(** The value is the argument of [sys.exit]. *)
Definition main : M Z :=
  ok <- add_files_to_pbxproj pbxproj_path files_to_add ;;
  if ok then
    print (CHECK_MARK ++ str " Files added successfully!") ;;;
    ret 0%Z
  else
    print (CROSS_MARK ++ str " Failed to add files") ;;;
    ret 1%Z.

(** The exit status of the process: the argument of [sys.exit], or 1 when an
    exception reaches the top level. *)
Definition exit_status (w : World) : Z * World :=
  match main w with
  | (Returns code, w') => (code, w')
  | (Raises _, w') => (1%Z, w')
  end.

(** ** What a match means

    The declarative reading of the regex syntax: [derives r st st'] says that
    [r] can consume the characters between [st] and [st'], closing its groups
    on the way.  The matcher is sound and complete for it; which derivation
    it picks is a matter of priorities. *)

Definition all_accepted (cl : cclass) (w : text) : Prop :=
  Forall (fun c => accepts cl c = true) w.

Inductive derives : regex -> mstate -> mstate -> Prop :=
| derives_lit l p s g :
    derives (Lit l) (MState p (l ++ s) g) (MState (p + length l) s g)
| derives_exactly cl w p s g :
    all_accepted cl w ->
    derives (Exactly (length w) cl) (MState p (w ++ s) g) (MState (p + length w) s g)
| derives_lazy cl w p s g :
    all_accepted cl w ->
    derives (LazyStar cl) (MState p (w ++ s) g) (MState (p + length w) s g)
| derives_plus cl w p s g :
    w <> [] ->
    all_accepted cl w ->
    derives (GreedyPlus cl) (MState p (w ++ s) g) (MState (p + length w) s g)
| derives_cat r1 r2 st st1 st2 :
    derives r1 st st1 ->
    derives r2 st1 st2 ->
    derives (Cat r1 r2) st st2
| derives_group i r st st' :
    derives r st st' ->
    derives (Group i r) st
      (MState (pos st') (rest st') (<[i := (pos st, pos st')]> (caps st'))).

(** The two shapes of pattern the script uses, with their literals left
    open. *)
Definition section_re (begin_marker end_marker : text) : regex :=
  Group 1 (Cat (Lit begin_marker) (Cat (LazyStar Dot) (Lit end_marker))).

Definition list_field_re (label field : text) : regex :=
  Cat (Group 1 (Exactly 24 upper_hex))
 (Cat (Lit label)
 (Cat (GreedyPlus (not_char "}"))
 (Cat (Lit field)
 (Cat (Group 2 (GreedyPlus (not_char ")")))
      (Lit (str ");")))))).

(** A record with a list field, read off the text: an identifier, the
    annotation [label], a body free of closing braces, the field opener, a
    non-empty list content free of closing parentheses, and the closer. *)
Record record_at (label field : text) (subject : text) (start : nat)
    (pre id body kids post : text) : Prop := {
  rec_subject : subject = pre ++ id ++ label ++ body ++ field ++ kids ++ str ");" ++ post;
  rec_start : length pre = start;
  rec_id_len : length id = 24;
  rec_id_hex : all_accepted upper_hex id;
  rec_body_ne : body <> [];
  rec_body : all_accepted (not_char "}") body;
  rec_kids_ne : kids <> [];
  rec_kids : all_accepted (not_char ")") kids
}.

(** ** Vocabulary of the statements *)

(** Every filename is a key of the dictionary. *)
Definition keys_present (files : list text) (d : gmap text text) : Prop :=
  forall f, f ∈ files -> is_Some (d !! f).

(** The world after one more printed line, and after a file was written. *)
Definition printed (line : text) (w : World) : World :=
  mkWorld (disk w) (stdout w ++ [line]) (entropy w) (drawn w).

Definition written (path content : text) (w : World) : World :=
  mkWorld (<[path := File content]> (disk w)) (stdout w) (entropy w) (drawn w).

(** The records a run renders from its two dictionaries, one per element of
    [files_to_add] and in its order. *)
Definition new_file_refs (files : list text) (fr : gmap text text) : list text :=
  map (fun f => file_ref_line (fr !!! f) f) files.

Definition new_children (files : list text) (fr : gmap text text) : list text :=
  map (fun f => group_child_line (fr !!! f) f) files.

Definition new_build_files (files : list text) (br : gmap text text) : list text :=
  map (fun f => build_phase_line (br !!! f) f) files.

Definition new_pbx_build_files (files : list text) (fr br : gmap text text)
  : list text :=
  map (fun f => build_file_line (br !!! f) (fr !!! f) f) files.

(** [c'] is [c] with [fragment] put in at one offset and nothing else
    touched. *)
Definition spliced (c fragment c' : text) : Prop :=
  exists before after, c = before ++ after /\ c' = before ++ fragment ++ after.

(** The four regions are found one after the other, each in the text the
    step before it left, and [c4] is the text after the last insertion. *)
Definition all_located (files : list text) (fr br : gmap text text) (w : World)
    (c0 c4 : text) : Prop :=
  exists c1 c2 c3,
    (insert_file_references files fr c0 w).1 = Returns (Some c1)
    /\ (insert_group_children files fr c1 w).1 = Returns (Some c2)
    /\ (insert_build_phase_files files br c2 w).1 = Returns (Some c3)
    /\ (insert_build_files files fr br c3 w).1 = Returns (Some c4).

(** One of the four searches finds nothing, the earlier ones having
    succeeded. *)
Definition some_not_located (files : list text) (fr br : gmap text text)
    (w : World) (c0 : text) : Prop :=
  search file_ref_section_re c0 = None
  \/ exists c1,
       (insert_file_references files fr c0 w).1 = Returns (Some c1)
       /\ (search models_group_re c1 = None
           \/ exists c2,
                (insert_group_children files fr c1 w).1 = Returns (Some c2)
                /\ (search sources_build_phase_re c2 = None
                    \/ exists c3,
                         (insert_build_phase_files files br c2 w).1
                         = Returns (Some c3)
                         /\ search build_file_section_re c3 = None)).

(** The dictionaries the identifier loop leaves, and the world after it. *)
Definition drawn_ids (files : list text) (w : World)
  : gmap text text * gmap text text :=
  match (generate_ids files ∅ ∅ w).1 with
  | Returns ids => ids
  | Raises _ => (∅, ∅)
  end.

Definition after_ids (files : list text) (w : World) : World :=
  (generate_ids files ∅ ∅ w).2.

(** The line [add_files_to_pbxproj] prints on success. *)
Definition success_line (files : list text) : text :=
  str "Successfully added " ++ decimal (length files)
    ++ str " files to Xcode project".

(** ** Sample descriptors

    Small project files in the layout Xcode writes, used to run the script on
    concrete inputs. *)

Definition lines (ls : list string) : text :=
  join (map (fun l => str l ++ [NL]) ls).

Definition sample_build_file_section : list string :=
  [ "/* Begin PBXBuildFile section */";
    "  AAAA00000000000000000001 /* C.swift in Sources */ = {isa = PBXBuildFile; fileRef = AAAA00000000000000000002 /* C.swift */; };";
    "/* End PBXBuildFile section */" ]%string.

Definition sample_file_ref_section : list string :=
  [ "/* Begin PBXFileReference section */";
    "  AAAA00000000000000000002 /* C.swift */ = {isa = PBXFileReference; path = C.swift; };";
    "/* End PBXFileReference section */" ]%string.

Definition sample_models_group : list string :=
  [ "  AAAA00000000000000000003 /* Models */ = {";
    "   isa = PBXGroup;";
    "   children = (";
    "    AAAA00000000000000000002 /* C.swift */,";
    "   );";
    "  };" ]%string.

Definition sample_sources_phase : list string :=
  [ "  AAAA00000000000000000004 /* Sources */ = {";
    "   isa = PBXSourcesBuildPhase;";
    "   files = (";
    "    AAAA00000000000000000001 /* C.swift in Sources */,";
    "   );";
    "  };" ]%string.

(** A descriptor with the four regions. *)
Definition sample_pbxproj : text :=
  lines (sample_build_file_section ++ sample_file_ref_section
           ++ sample_models_group ++ sample_sources_phase).

(** The same descriptor without its Models group. *)
Definition sample_without_models : text :=
  lines (sample_build_file_section ++ sample_file_ref_section
           ++ sample_sources_phase).

(** A world whose project file is [content], with nothing printed yet and an
    entropy source that counts. *)
Definition world_with (content : text) : World :=
  mkWorld {[ pbxproj_path := File content ]} [] (fun n => N.of_nat n) 0.

(** The two delimited sections of the sample up to, and without, the line
    break that precedes their end marker, and the dictionaries of a run that
    adds one file. *)
Definition file_ref_section_head : text :=
  str "/* Begin PBXFileReference section */" ++ [NL]
  ++ str "  AAAA00000000000000000002 /* C.swift */ = {isa = PBXFileReference; path = C.swift; };".

Definition build_file_section_head : text :=
  str "/* Begin PBXBuildFile section */" ++ [NL]
  ++ str "  AAAA00000000000000000001 /* C.swift in Sources */ = {isa = PBXBuildFile; fileRef = AAAA00000000000000000002 /* C.swift */; };".

Definition one_file : list text := [str "A.swift"].
Definition one_file_ref : text := str "111111111111111111111111".
Definition one_build_ref : text := str "222222222222222222222222".
Definition one_file_refs : gmap text text := {[ str "A.swift" := one_file_ref ]}.
Definition one_build_refs : gmap text text := {[ str "A.swift" := one_build_ref ]}.

(** Some record of the shape starts at offset [start]. *)
Definition record_starts (label field subject : text) (start : nat) : Prop :=
  exists pre id body kids post, record_at label field subject start pre id body kids post.

(** A second Models group and a second Sources phase, and a descriptor with
    two of each. *)
Definition sample_second_models_group : list string :=
  [ "  BBBB00000000000000000003 /* Models */ = {";
    "   children = (";
    "    BBBB00000000000000000002 /* D.swift */,";
    "   );";
    "  };" ]%string.

Definition sample_second_sources_phase : list string :=
  [ "  BBBB00000000000000000004 /* Sources */ = {";
    "   files = (";
    "    BBBB00000000000000000001 /* D.swift in Sources */,";
    "   );";
    "  };" ]%string.

Definition sample_two_of_each : text :=
  lines (sample_models_group ++ sample_second_models_group
           ++ sample_sources_phase ++ sample_second_sources_phase).

(** A checker for [record_starts]: the record starts at [q], its body has
    [nb] characters and its list content [nk]. *)
Definition record_check (label field subject : text) (q nb nk : nat) : bool :=
  let pre := take q subject in
  let id := take 24 (drop q subject) in
  let body := take nb (drop (q + 24 + length label) subject) in
  let kids := take nk (drop (q + 24 + length label + nb + length field) subject) in
  let post := drop (q + 24 + length label + nb + length field + nk + 2) subject in
  bool_decide (subject = pre ++ id ++ label ++ body ++ field ++ kids ++ str ");" ++ post)
  && bool_decide (length pre = q) && bool_decide (length id = 24)
  && forallb (accepts upper_hex) id
  && negb (bool_decide (body = [])) && forallb (accepts (not_char "}")) body
  && negb (bool_decide (kids = [])) && forallb (accepts (not_char ")")) kids.










(** The world of the sample descriptor, whose entropy source counts, and a
    file list that names one file twice. *)
Definition counting_world : World := world_with sample_pbxproj.

Definition repeated_files : list text :=
  [str "A.swift"; str "B.swift"; str "A.swift"].

(** ** Further vocabulary *)

(** Hexadecimal digit [j], counted from the right, of an integer. *)
Definition nibble (n j : N) : N := N.land (N.shiftr n (4 * j)) 15.

(** Lines that end in a carriage return and a line feed, and the sample
    descriptor stored that way. *)
Definition crlf_lines (ls : list string) : text :=
  join (map (fun l => str l ++ [CR; NL]) ls).

Definition sample_crlf : text :=
  crlf_lines (sample_build_file_section ++ sample_file_ref_section
                ++ sample_models_group ++ sample_sources_phase).

(** The bytes of the regular file at [path]; the empty string when no
    regular file is there. *)
Definition written_text (path : text) (w : World) : text :=
  match disk w !! path with
  | Some (File content) => content
  | _ => []
  end.


(** The world of the sample descriptor with an entropy source whose draws
    give tokens that differ from one another. *)
Definition spread_world : World :=
  mkWorld {[ pbxproj_path := File sample_pbxproj ]} []
    (fun n => N.shiftl (N.of_nat (S n)) 100) 0.

(** A world without any file. *)
Definition no_file_world : World := mkWorld ∅ [] (fun n => N.of_nat n) 0.

(** The four lines a failing run can print (lines 37, 61, 85 and 105). *)
Definition error_lines : list text :=
  [str "Error: Could not find PBXFileReference section";
   str "Error: Could not find Models group";
   str "Error: Could not find Sources build phase";
   str "Error: Could not find PBXBuildFile section"].

(** The closing lines of the main block (lines 129 and 132). *)
Definition success_mark_line : text := CHECK_MARK ++ str " Files added successfully!".
Definition failure_mark_line : text := CROSS_MARK ++ str " Failed to add files".

(** The number of bytes a run adds for one filename: six copies of the
    name, five identifiers of 24 characters, and the fixed text of the four
    templates. *)
Definition record_bytes (filename : text) : nat := 6 * length filename + 334.

(** ** Lemmas on text *)

Lemma slice_split (s : text) (i : Z) : slice_to s i ++ slice_from s i = s.
Proof. unfold slice_to, slice_from. apply take_drop. Qed.

Lemma slice_index_in_range (s : text) (i : Z) :
  (0 <= i <= len s)%Z -> slice_index s i = Z.to_nat i.
Proof.
  intros [Hlo Hhi]. unfold slice_index.
  destruct (i <? 0)%Z eqn:E; [apply Z.ltb_lt in E; lia|].
  f_equal. lia.
Qed.

Lemma char_count_app (a b : text) :
  char_count (a ++ b) = char_count a + char_count b.
Proof. induction a as [|c a IH]; simpl; [reflexivity|]. rewrite IH. lia. Qed.

(** The characters of [pre] take the bytes of [pre], when what follows
    starts a character. *)
Lemma byte_offset_boundary (pre post : text) :
  at_boundary post -> byte_offset (char_count pre) (pre ++ post) = length pre.
Proof.
  intros Hb. induction pre as [|c pre IH]; simpl.
  - destruct post as [|c post]; [reflexivity|]. simpl in Hb. simpl. rewrite Hb. reflexivity.
  - destruct (is_cont c); simpl; rewrite IH; reflexivity.
Qed.

(** A string without continuation bytes has one character per byte. *)
Lemma char_count_ascii (s : text) :
  Forall (fun c => is_cont c = false) s -> char_count s = length s.
Proof. induction 1 as [|c s Hc _ IH]; simpl; [reflexivity|]. rewrite Hc, IH. reflexivity. Qed.

Lemma byte_offset_ascii (n : nat) (s : text) :
  Forall (fun c => is_cont c = false) s -> byte_offset n s = n `min` length s.
Proof.
  intros Hs. revert n. induction Hs as [|c s Hc _ IH]; intros n; simpl.
  - lia.
  - rewrite Hc. destruct n as [|n]; [reflexivity|]. rewrite IH. reflexivity.
Qed.

Lemma one_char_count (ch : text) : one_char ch -> char_count ch = 1.
Proof.
  destruct ch as [|b conts]; [contradiction|]. intros [Hb Hc]. simpl. rewrite Hb.
  induction Hc as [|c conts Hcc _ IH]; simpl; [reflexivity|]. rewrite Hcc. exact IH.
Qed.

Lemma one_char_boundary (ch s : text) : one_char ch -> at_boundary (ch ++ s).
Proof. destruct ch as [|b conts]; [contradiction|]. intros [Hb _]. exact Hb. Qed.

(** A string that holds the first byte of a character ends with a whole
    character. *)
Lemma last_char_split (s : text) :
  Exists (fun c => is_cont c = false) s ->
  exists x ch, s = x ++ ch /\ one_char ch.
Proof.
  induction s as [|c s IH] using rev_ind; intros Hex.
  - by apply Exists_nil in Hex.
  - destruct (is_cont c) eqn:Hc.
    + apply Exists_app in Hex as [Hex|Hex].
      * destruct (IH Hex) as (x & ch & -> & Hch).
        exists x, (ch ++ [c]). split; [by rewrite app_assoc|].
        destruct ch as [|b conts]; [contradiction|]. destruct Hch as [Hb Hconts].
        split; [exact Hb|]. apply Forall_app. split; [exact Hconts|].
        by constructor.
      * apply Exists_cons in Hex as [Hex|Hex]; [congruence|].
        by apply Exists_nil in Hex.
    + exists s, [c]. split; [reflexivity|]. split; [exact Hc | constructor].
Qed.

Lemma insert_at_app (pre post : text) (frags : list text) :
  at_boundary post ->
  insert_at (pre ++ post) (len pre) frags = pre ++ join frags ++ post.
Proof.
  intros Hb. unfold insert_at, slice_to, slice_from.
  rewrite slice_index_in_range.
  - unfold len. rewrite Nat2Z.id, (byte_offset_boundary _ _ Hb).
    rewrite take_app_length, drop_app_length. reflexivity.
  - unfold len. rewrite char_count_app. lia.
Qed.

Lemma insert_at_length (content : text) (i : Z) (frags : list text) :
  length (insert_at content i frags) = length content + length (join frags).
Proof.
  unfold insert_at. rewrite !length_app.
  rewrite <- (slice_split content i) at 3. rewrite length_app. lia.
Qed.

(** ** Soundness and completeness of the matcher *)

Module ReFacts.

Lemma strip_prefix_Some (l s s' : text) :
  strip_prefix l s = Some s' <-> s = l ++ s'.
Proof.
  revert s. induction l as [|a l IH]; intros s; simpl.
  - split; [intros [= ->]; reflexivity | intros ->; reflexivity].
  - destruct s as [|b s]; [split; [discriminate | intros [=]]|].
    destruct (decide (a = b)) as [->|Hne].
    + rewrite IH. split; [intros ->; reflexivity | intros [= ->]; reflexivity].
    + split; [discriminate | intros [= ? ?]; congruence].
Qed.

Lemma strip_prefix_app (l s : text) : strip_prefix l (l ++ s) = Some s.
Proof. apply strip_prefix_Some. reflexivity. Qed.

Section Quantifiers.
Context {R : Type}.
Variable cl : cclass.
Variable k : mstate -> option R.

Lemma exactly_app (w s : text) (p : nat) (g : gmap nat (nat * nat)) :
  all_accepted cl w ->
  exactly cl k (length w) p (w ++ s) g = k (MState (p + length w) s g).
Proof.
  intros Hw. revert p. induction Hw as [|c w Hc Hw IH]; intros p; simpl.
  - rewrite Nat.add_0_r. reflexivity.
  - rewrite Hc, IH. do 2 f_equal. lia.
Qed.

Lemma exactly_Some (n p : nat) (s : text) (g : gmap nat (nat * nat)) (res : R) :
  exactly cl k n p s g = Some res ->
  exists w s', s = w ++ s' /\ length w = n /\ all_accepted cl w
               /\ k (MState (p + length w) s' g) = Some res.
Proof.
  revert p s. induction n as [|n IH]; intros p s; simpl.
  - intros H. exists [], s. rewrite Nat.add_0_r.
    repeat split; [constructor | exact H].
  - destruct s as [|c s]; [discriminate|].
    destruct (accepts cl c) eqn:Hc; [|discriminate].
    intros H. destruct (IH _ _ H) as (w & s' & -> & Hn & Hw & Hk).
    exists (c :: w), s'. simpl. repeat split; [lia | by constructor |].
    rewrite <- Hk. do 2 f_equal. lia.
Qed.

Lemma lazy_star_Some (p : nat) (s : text) (g : gmap nat (nat * nat)) (res : R) :
  lazy_star cl k p s g = Some res ->
  exists w s', s = w ++ s' /\ all_accepted cl w
               /\ k (MState (p + length w) s' g) = Some res.
Proof.
  revert p. induction s as [|c s IH]; intros p; simpl.
  - destruct (k (MState p [] g)) eqn:Hk; [|discriminate].
    intros [= ->]. exists [], []. rewrite Nat.add_0_r.
    repeat split; [constructor | exact Hk].
  - destruct (k (MState p (c :: s) g)) eqn:Hk.
    + intros [= ->]. exists [], (c :: s). rewrite Nat.add_0_r.
      repeat split; [constructor | exact Hk].
    + destruct (accepts cl c) eqn:Hc; [|discriminate].
      intros H. destruct (IH _ H) as (w & s' & -> & Hw & Hk').
      exists (c :: w), s'. simpl. repeat split; [by constructor |].
      rewrite <- Hk'. do 2 f_equal. lia.
Qed.

Lemma lazy_star_complete (w s : text) (p : nat) (g : gmap nat (nat * nat)) :
  all_accepted cl w ->
  is_Some (k (MState (p + length w) s g)) ->
  is_Some (lazy_star cl k p (w ++ s) g).
Proof.
  intros Hw. revert p. induction Hw as [|c w Hc Hw IH]; intros p Hk.
  - simpl in *. rewrite Nat.add_0_r in Hk.
    destruct s; simpl; destruct Hk as [r ->]; eauto.
  - simpl. destruct (k (MState p (c :: w ++ s) g)); [eauto|].
    rewrite Hc. apply IH. simpl in Hk.
    replace (S p + length w) with (p + S (length w)) by lia. exact Hk.
Qed.

Lemma greedy_star_Some (p : nat) (s : text) (g : gmap nat (nat * nat)) (res : R) :
  greedy_star cl k p s g = Some res ->
  exists w s', s = w ++ s' /\ all_accepted cl w
               /\ k (MState (p + length w) s' g) = Some res.
Proof.
  revert p. induction s as [|c s IH]; intros p; simpl.
  - intros Hk. exists [], []. rewrite Nat.add_0_r.
    repeat split; [constructor | exact Hk].
  - assert (Hstop : k (MState p (c :: s) g) = Some res ->
              exists w s', c :: s = w ++ s' /\ all_accepted cl w
                           /\ k (MState (p + length w) s' g) = Some res).
    { intros Hk. exists [], (c :: s). rewrite Nat.add_0_r.
      repeat split; [constructor | exact Hk]. }
    destruct (accepts cl c) eqn:Hc; [|exact Hstop].
    destruct (greedy_star cl k (S p) s g) eqn:Hg; [|exact Hstop].
    intros [= ->]. destruct (IH _ Hg) as (w & s' & -> & Hw & Hk').
    exists (c :: w), s'. simpl. repeat split; [by constructor |].
    rewrite <- Hk'. do 2 f_equal. lia.
Qed.

Lemma greedy_star_complete (w s : text) (p : nat) (g : gmap nat (nat * nat)) :
  all_accepted cl w ->
  is_Some (k (MState (p + length w) s g)) ->
  is_Some (greedy_star cl k p (w ++ s) g).
Proof.
  intros Hw. revert p. induction Hw as [|c w Hc Hw IH]; intros p Hk.
  - simpl in *. rewrite Nat.add_0_r in Hk.
    destruct s as [|c s]; simpl; [exact Hk|].
    destruct (accepts cl c); [|exact Hk].
    destruct (greedy_star cl k (S p) s g); [eauto | exact Hk].
  - simpl. rewrite Hc.
    assert (Hin : is_Some (greedy_star cl k (S p) (w ++ s) g)).
    { apply IH. simpl in Hk.
      replace (S p + length w) with (p + S (length w)) by lia. exact Hk. }
    destruct Hin as [r ->]. eauto.
Qed.

Lemma greedy_plus_Some (p : nat) (s : text) (g : gmap nat (nat * nat)) (res : R) :
  greedy_plus cl k p s g = Some res ->
  exists w s', s = w ++ s' /\ w <> [] /\ all_accepted cl w
               /\ k (MState (p + length w) s' g) = Some res.
Proof.
  unfold greedy_plus. destruct s as [|c s]; [discriminate|].
  destruct (accepts cl c) eqn:Hc; [|discriminate].
  intros H. destruct (greedy_star_Some _ _ _ _ H) as (w & s' & -> & Hw & Hk).
  exists (c :: w), s'. simpl. repeat split; [discriminate | by constructor |].
  rewrite <- Hk. do 2 f_equal. lia.
Qed.

Lemma greedy_plus_complete (w s : text) (p : nat) (g : gmap nat (nat * nat)) :
  w <> [] ->
  all_accepted cl w ->
  is_Some (k (MState (p + length w) s g)) ->
  is_Some (greedy_plus cl k p (w ++ s) g).
Proof.
  intros Hne Hw Hk. destruct w as [|c w]; [done|].
  inversion Hw as [|? ? Hc Hw']; subst. simpl. rewrite Hc.
  apply greedy_star_complete; [exact Hw'|].
  simpl in Hk. replace (S p + length w) with (p + S (length w)) by lia. exact Hk.
Qed.

End Quantifiers.

Lemma run_sound {R : Type} (r : regex) (k : mstate -> option R) (st : mstate) (res : R) :
  run r k st = Some res ->
  exists st', derives r st st' /\ k st' = Some res.
Proof.
  revert k st res. induction r as [l|n cl|cl|cl|r1 IH1 r2 IH2|i r IH];
    intros k [p s g] res; simpl.
  - destruct (strip_prefix l s) as [s'|] eqn:Hs; [|discriminate].
    apply strip_prefix_Some in Hs as ->. intros Hk.
    eexists. split; [apply derives_lit | exact Hk].
  - intros H. apply exactly_Some in H as (w & s' & -> & <- & Hw & Hk).
    eexists. split; [by apply derives_exactly | exact Hk].
  - intros H. apply lazy_star_Some in H as (w & s' & -> & Hw & Hk).
    eexists. split; [by apply derives_lazy | exact Hk].
  - intros H. apply greedy_plus_Some in H as (w & s' & -> & Hne & Hw & Hk).
    eexists. split; [by apply derives_plus | exact Hk].
  - intros H. apply IH1 in H as (st1 & H1 & H).
    apply IH2 in H as (st2 & H2 & Hk).
    exists st2. split; [by eapply derives_cat | exact Hk].
  - intros H. apply IH in H as (st' & Hd & Hk).
    eexists. split; [apply derives_group, Hd | exact Hk].
Qed.

Lemma run_complete {R : Type} (r : regex) (k : mstate -> option R) (st st' : mstate) :
  derives r st st' ->
  is_Some (k st') ->
  is_Some (run r k st).
Proof.
  intros Hd. revert k. induction Hd as
    [l p s g|cl w p s g Hw|cl w p s g Hw|cl w p s g Hne Hw
    |r1 r2 st st1 st2 _ IH1 _ IH2|i r st st' _ IH]; intros k Hk; simpl.
  - rewrite strip_prefix_app. exact Hk.
  - rewrite exactly_app by exact Hw. exact Hk.
  - by apply lazy_star_complete.
  - by apply greedy_plus_complete.
  - apply IH1, IH2, Hk.
  - apply IH. exact Hk.
Qed.

End ReFacts.

(** ** [re.search] finds the leftmost offset with a match *)

Module SearchFacts.
Import ReFacts.

Lemma match_at_Some (r : regex) (p : nat) (s : text) (m : match_obj) :
  match_at r p s = Some m ->
  exists st', derives r (MState p s ∅) st'
              /\ m = Match p (pos st') (caps st').
Proof.
  unfold match_at. intros H. apply run_sound in H as (st' & Hd & [= <-]).
  exists st'. split; [exact Hd | reflexivity].
Qed.

Lemma match_at_complete (r : regex) (p : nat) (s : text) (st' : mstate) :
  derives r (MState p s ∅) st' -> is_Some (match_at r p s).
Proof. intros Hd. unfold match_at. eapply run_complete; [exact Hd | eauto]. Qed.

Lemma search_from_Some (r : regex) (p : nat) (s : text) (m : match_obj) :
  search_from r p s = Some m ->
  exists pre suf, s = pre ++ suf
    /\ match_at r (p + length pre) suf = Some m
    /\ forall pre' suf', s = pre' ++ suf' -> length pre' < length pre ->
         match_at r (p + length pre') suf' = None.
Proof.
  revert p. induction s as [|c s IH]; intros p; simpl.
  - destruct (match_at r p []) eqn:Hm; [|discriminate]. intros [= ->].
    exists [], []. simpl. rewrite Nat.add_0_r. repeat split; [exact Hm|].
    intros ? ? ? ?. lia.
  - destruct (match_at r p (c :: s)) eqn:Hm.
    + intros [= ->]. exists [], (c :: s). simpl. rewrite Nat.add_0_r.
      repeat split; [exact Hm|]. intros ? ? ? ?. lia.
    + intros H. apply IH in H as (pre & suf & -> & Hat & Hleft).
      exists (c :: pre), suf. simpl. repeat split.
      * rewrite <- Hat. f_equal. lia.
      * intros pre' suf' Heq Hlt. destruct pre' as [|c' pre'].
        -- simpl in *. subst suf'. rewrite Nat.add_0_r. exact Hm.
        -- simpl in *. injection Heq as <- Heq.
           replace (p + S (length pre')) with (S p + length pre') by lia.
           apply Hleft; [exact Heq | lia].
Qed.

Lemma search_from_None (r : regex) (p : nat) (s pre suf : text) :
  search_from r p s = None ->
  s = pre ++ suf ->
  match_at r (p + length pre) suf = None.
Proof.
  revert p pre. induction s as [|c s IH]; intros p pre; simpl.
  - destruct (match_at r p []) eqn:Hm; [discriminate|]. intros _ Heq.
    symmetry in Heq. apply app_eq_nil in Heq as [-> ->].
    simpl. rewrite Nat.add_0_r. exact Hm.
  - destruct (match_at r p (c :: s)) eqn:Hm; [discriminate|]. intros H Heq.
    destruct pre as [|c' pre]; simpl in *.
    + subst suf. rewrite Nat.add_0_r. exact Hm.
    + injection Heq as <- Heq.
      replace (p + S (length pre)) with (S p + length pre) by lia.
      by apply IH.
Qed.

Lemma search_Some (r : regex) (subject : text) (m : match_obj) :
  search r subject = Some m ->
  exists pre suf st', subject = pre ++ suf
    /\ derives r (MState (length pre) suf ∅) st'
    /\ m = Match (length pre) (pos st') (caps st')
    /\ forall pre' suf' st'', subject = pre' ++ suf' ->
         derives r (MState (length pre') suf' ∅) st'' ->
         length pre <= length pre'.
Proof.
  unfold search. intros H.
  apply search_from_Some in H as (pre & suf & -> & Hat & Hleft). simpl in *.
  apply match_at_Some in Hat as (st' & Hd & ->).
  exists pre, suf, st'. repeat split; [exact Hd|].
  intros pre' suf' st'' Heq Hd'.
  destruct (decide (length pre <= length pre')) as [|Hlt]; [done|].
  apply match_at_complete in Hd' as [m' Hm'].
  rewrite (Hleft pre' suf' Heq) in Hm' by lia. discriminate.
Qed.

Lemma search_None (r : regex) (pre suf : text) (st' : mstate) :
  search r (pre ++ suf) = None ->
  ~ derives r (MState (length pre) suf ∅) st'.
Proof.
  unfold search. intros H Hd.
  apply (search_from_None _ _ _ pre suf) in H; [|reflexivity]. simpl in H.
  apply match_at_complete in Hd as [m Hm]. congruence.
Qed.

Lemma search_is_Some (r : regex) (pre suf : text) (st' : mstate) :
  derives r (MState (length pre) suf ∅) st' ->
  is_Some (search r (pre ++ suf)).
Proof.
  intros Hd. destruct (search r (pre ++ suf)) eqn:H; [eauto|].
  exfalso. eapply search_None; eauto.
Qed.

(** *** Delimited sections *)

Lemma all_accepted_dot (w : text) : all_accepted Dot w.
Proof. induction w; by constructor. Qed.

Lemma derives_section (B E : text) (p : nat) (s : text) (st' : mstate) :
  derives (section_re B E) (MState p s ∅) st' ->
  exists mid post, s = B ++ mid ++ E ++ post
    /\ pos st' = p + length B + length mid + length E.
Proof.
  unfold section_re. intros H.
  inversion H as [| | | | |? ? ? st1 H1]; subst; clear H.
  inversion H1 as [| | | |? ? ? sa sb Ha Hb|]; subst; clear H1.
  inversion Ha; subst; clear Ha.
  inversion Hb as [| | | |? ? ? sc sd Hc Hd|]; subst; clear Hb.
  inversion Hc; subst; clear Hc.
  inversion Hd; subst; clear Hd.
  simpl. eexists _, _. split; [reflexivity | lia].
Qed.

Lemma section_derives (B E mid post : text) (p : nat) :
  exists st', derives (section_re B E) (MState p (B ++ mid ++ E ++ post) ∅) st'.
Proof.
  eexists. unfold section_re. apply derives_group.
  eapply derives_cat; [apply derives_lit|].
  eapply derives_cat; [apply derives_lazy, all_accepted_dot | apply derives_lit].
Qed.

Lemma search_section_Some (B E subject : text) (m : match_obj) :
  search (section_re B E) subject = Some m ->
  exists pre mid post, subject = pre ++ B ++ mid ++ E ++ post
    /\ m_start m = length pre
    /\ m_stop m = length pre + length B + length mid + length E.
Proof.
  intros H. apply search_Some in H as (pre & suf & st' & -> & Hd & -> & _).
  apply derives_section in Hd as (mid & post & -> & Hpos).
  exists pre, mid, post. simpl. repeat split. exact Hpos.
Qed.

Lemma search_section_is_Some (B E pre mid post : text) :
  is_Some (search (section_re B E) (pre ++ B ++ mid ++ E ++ post)).
Proof.
  destruct (section_derives B E mid post (length pre)) as [st' Hd].
  eapply search_is_Some, Hd.
Qed.

(** *** Records with a list field *)

Lemma derives_list_field (L F : text) (p : nat) (s : text) (st' : mstate) :
  derives (list_field_re L F) (MState p s ∅) st' ->
  exists id body kids post,
    s = id ++ L ++ body ++ F ++ kids ++ str ");" ++ post
    /\ length id = 24 /\ all_accepted upper_hex id
    /\ body <> [] /\ all_accepted (not_char "}") body
    /\ kids <> [] /\ all_accepted (not_char ")") kids
    /\ caps st' !! 2
       = Some (p + length (id ++ L ++ body ++ F),
               p + length (id ++ L ++ body ++ F ++ kids)).
Proof.
  unfold list_field_re. intros H.
  inversion H as [| | | |? ? ? s1 s2 H1 H2|]; subst; clear H.
  inversion H1 as [| | | | |? ? ? s1' H1']; subst; clear H1.
  inversion H1' as [|? w1 ? ? ? Hw1| | | |]; subst; clear H1'.
  inversion H2 as [| | | |? ? ? s3 s4 H3 H4|]; subst; clear H2.
  inversion H3; subst; clear H3.
  inversion H4 as [| | | |? ? ? s5 s6 H5 H6|]; subst; clear H4.
  inversion H5 as [| | |? wb ? ? ? Hbne Hwb| |]; subst; clear H5.
  inversion H6 as [| | | |? ? ? s7 s8 H7 H8|]; subst; clear H6.
  inversion H7; subst; clear H7.
  inversion H8 as [| | | |? ? ? s9 s10 H9 H10|]; subst; clear H8.
  inversion H9 as [| | | | |? ? ? s9' H9']; subst; clear H9.
  inversion H9' as [| | |? wk ? ? ? Hkne Hwk| |]; subst; clear H9'.
  inversion H10; subst; clear H10.
  exists w1, wb, wk, s. simpl. repeat split; try done.
  rewrite lookup_insert_eq. rewrite !length_app. do 2 f_equal; lia.
Qed.

Lemma list_field_derives (L F id body kids post : text) (p : nat) :
  length id = 24 -> all_accepted upper_hex id ->
  body <> [] -> all_accepted (not_char "}") body ->
  kids <> [] -> all_accepted (not_char ")") kids ->
  exists st',
    derives (list_field_re L F)
      (MState p (id ++ L ++ body ++ F ++ kids ++ str ");" ++ post) ∅) st'.
Proof.
  intros Hlen Hid Hbne Hb Hkne Hk. eexists. unfold list_field_re.
  eapply derives_cat.
  { apply derives_group. rewrite <- Hlen. by apply derives_exactly. }
  eapply derives_cat; [apply derives_lit|].
  eapply derives_cat; [by apply derives_plus|].
  eapply derives_cat; [apply derives_lit|].
  eapply derives_cat; [apply derives_group; by apply derives_plus|].
  apply derives_lit.
Qed.

Lemma record_at_derives (L F subject : text) (q : nat) (pre id body kids post : text) :
  record_at L F subject q pre id body kids post ->
  exists suf st', subject = pre ++ suf /\ length pre = q
    /\ derives (list_field_re L F) (MState (length pre) suf ∅) st'.
Proof.
  intros [-> Hq Hlen Hid Hbne Hb Hkne Hk].
  destruct (list_field_derives L F id body kids post (length pre))
    as [st' Hd]; try done.
  eexists _, st'. repeat split; [exact Hq | exact Hd].
Qed.

(** A successful search returns a record of the declared shape, the
    insertion offset [m.end(2)] is the end of its list content, and no record
    of that shape starts further left. *)
Lemma search_list_field_Some (L F subject : text) (m : match_obj) :
  search (list_field_re L F) subject = Some m ->
  exists pre id body kids post,
    record_at L F subject (m_start m) pre id body kids post
    /\ m_end_of subject m 2 = len (pre ++ id ++ L ++ body ++ F ++ kids)
    /\ forall q pre' id' body' kids' post',
         record_at L F subject q pre' id' body' kids' post' -> m_start m <= q.
Proof.
  intros H. apply search_Some in H as (pre & suf & st' & -> & Hd & -> & Hleft).
  apply derives_list_field in Hd
    as (id & body & kids & post & -> & Hlen & Hid & Hbne & Hb & Hkne & Hk & Hcap).
  exists pre, id, body, kids, post. simpl. split; [by constructor|]. split.
  - unfold m_end_of. simpl. rewrite Hcap. f_equal.
    rewrite <- (length_app pre (id ++ L ++ body ++ F ++ kids)).
    change (")"%char :: ";"%char :: post) with (str ");" ++ post).
    replace (pre ++ id ++ L ++ body ++ F ++ kids ++ str ");" ++ post)
      with ((pre ++ id ++ L ++ body ++ F ++ kids) ++ str ");" ++ post)
      by (rewrite <- !app_assoc; reflexivity).
    apply take_app_length.
  - intros q pre' id' body' kids' post' Hrec.
    apply record_at_derives in Hrec as (suf' & st'' & Heq & <- & Hd').
    eapply Hleft; eauto.
Qed.

Lemma search_list_field_None (L F subject : text) (q : nat)
    (pre id body kids post : text) :
  search (list_field_re L F) subject = None ->
  ~ record_at L F subject q pre id body kids post.
Proof.
  intros H Hrec.
  apply record_at_derives in Hrec as (suf & st' & -> & _ & Hd).
  eapply search_None; eauto.
Qed.

Lemma search_list_field_is_Some (L F subject : text) (q : nat)
    (pre id body kids post : text) :
  record_at L F subject q pre id body kids post ->
  is_Some (search (list_field_re L F) subject).
Proof.
  intros Hrec. destruct (search (list_field_re L F) subject) eqn:H; [eauto|].
  exfalso. eapply search_list_field_None; eauto.
Qed.

End SearchFacts.

(** ** The steps of the script *)

Module RunFacts.
Import SearchFacts.

(** The identifier loop never fails; it consumes two draws per element and
    leaves under each filename the pair drawn at its last occurrence. *)
Lemma generate_ids_spec (files : list text) :
  forall (fr br : gmap text text) (w : World),
  exists fr' br',
    generate_ids files fr br w
    = (Returns (fr', br'),
       mkWorld (disk w) (stdout w) (entropy w) (drawn w + 2 * length files))
    /\ keys_present files fr' /\ keys_present files br'
    /\ (forall f, f ∉ files -> fr' !! f = fr !! f /\ br' !! f = br !! f)
    /\ (forall i f, files !! i = Some f ->
          (forall j, i < j -> files !! j <> Some f) ->
          fr' !! f = Some (Uuid.token (entropy w (drawn w + 2 * i)))
          /\ br' !! f = Some (Uuid.token (entropy w (drawn w + 2 * i + 1)))).
Proof.
  induction files as [|f0 fs IH]; intros fr br w.
  - exists fr, br. simpl. unfold ret. split; [|split; [|split; [|split]]].
    + destruct w; simpl. do 2 f_equal. lia.
    + intros f Hf. by apply elem_of_nil in Hf.
    + intros f Hf. by apply elem_of_nil in Hf.
    + done.
    + intros i f Hi. by rewrite lookup_nil in Hi.
  - set (t0 := Uuid.token (entropy w (drawn w))).
    set (t1 := Uuid.token (entropy w (S (drawn w)))).
    destruct (IH (<[f0 := t0]> fr) (<[f0 := t1]> br)
                (mkWorld (disk w) (stdout w) (entropy w) (S (S (drawn w)))))
      as (fr' & br' & Hrun & Hkf & Hkb & Hout & Hlast).
    simpl in Hrun, Hlast.
    exists fr', br'. split; [|split; [|split; [|split]]].
    + simpl. unfold bind, generate_uuid. simpl. fold t0 t1. rewrite Hrun.
      do 2 f_equal. lia.
    + intros f Hf. destruct (decide (f ∈ fs)) as [Hin|Hnin]; [by apply Hkf|].
      apply elem_of_cons in Hf as [->|Hf]; [|done].
      destruct (Hout f0 Hnin) as [-> _]. rewrite lookup_insert_eq. eauto.
    + intros f Hf. destruct (decide (f ∈ fs)) as [Hin|Hnin]; [by apply Hkb|].
      apply elem_of_cons in Hf as [->|Hf]; [|done].
      destruct (Hout f0 Hnin) as [_ ->]. rewrite lookup_insert_eq. eauto.
    + intros f Hf. apply not_elem_of_cons in Hf as [Hne Hnin].
      destruct (Hout f Hnin) as [-> ->].
      rewrite !lookup_insert_ne by done. done.
    + intros i f Hi Hafter. destruct i as [|i]; simpl in Hi.
      * injection Hi as ->.
        assert (Hnin : f ∉ fs).
        { intros Hin. apply list_elem_of_lookup in Hin as [j Hj].
          apply (Hafter (S j)); [lia | exact Hj]. }
        destruct (Hout f Hnin) as [-> ->]. rewrite !lookup_insert_eq.
        unfold t0, t1. rewrite Nat.add_0_r.
        replace (drawn w + 1) with (S (drawn w)) by lia. done.
      * destruct (Hlast i f Hi) as [Hf Hb].
        { intros j Hj. apply (Hafter (S j)). lia. }
        rewrite Hf, Hb.
        replace (drawn w + 2 * S i) with (S (S (drawn w)) + 2 * i) by lia.
        done.
Qed.

(** A rendering loop over a dictionary that holds every filename. *)
Lemma for_each_lookup (d : gmap text text) (g : text -> text -> text)
    (files : list text) (w : World) :
  keys_present files d ->
  for_each (fun filename => v <- dict_get d filename ;; ret (g v filename)) files w
  = (Returns (map (fun f => g (d !!! f) f) files), w).
Proof.
  induction files as [|f fs IH]; intros Hk; simpl; [reflexivity|].
  destruct (Hk f) as [v Hv]; [by left|].
  unfold bind at 1. unfold bind at 1. unfold dict_get at 1. rewrite Hv. simpl.
  unfold bind at 1. rewrite IH.
  - unfold ret. simpl. rewrite (lookup_total_correct _ _ _ Hv). reflexivity.
  - intros f' Hf'. apply Hk. by right.
Qed.

Lemma for_each_lookup2 (d1 d2 : gmap text text) (g : text -> text -> text -> text)
    (files : list text) (w : World) :
  keys_present files d1 ->
  keys_present files d2 ->
  for_each (fun filename =>
              v1 <- dict_get d1 filename ;;
              v2 <- dict_get d2 filename ;;
              ret (g v1 v2 filename)) files w
  = (Returns (map (fun f => g (d1 !!! f) (d2 !!! f) f) files), w).
Proof.
  induction files as [|f fs IH]; intros Hk1 Hk2; simpl; [reflexivity|].
  destruct (Hk1 f) as [v1 Hv1]; [by left|].
  destruct (Hk2 f) as [v2 Hv2]; [by left|].
  unfold bind at 1. unfold bind at 1. unfold dict_get at 1. rewrite Hv1. simpl.
  unfold bind at 1. unfold dict_get at 1. rewrite Hv2. simpl.
  unfold bind at 1. rewrite IH.
  - unfold ret. simpl.
    rewrite (lookup_total_correct _ _ _ Hv1), (lookup_total_correct _ _ _ Hv2).
    reflexivity.
  - intros f' Hf'. apply Hk1. by right.
  - intros f' Hf'. apply Hk2. by right.
Qed.

Lemma bind_returns {A B} (m : M A) (f : A -> M B) (w w' : World) (a : A) :
  m w = (Returns a, w') -> bind m f w = f a w'.
Proof. intros H. unfold bind. rewrite H. reflexivity. Qed.

Lemma insert_file_references_run (files : list text) (fr : gmap text text)
    (content : text) (w : World) :
  keys_present files fr ->
  insert_file_references files fr content w =
  match search file_ref_section_re content with
  | None =>
      (Returns None, printed (str "Error: Could not find PBXFileReference section") w)
  | Some m =>
      (Returns (Some (insert_at content (m_end content m - 35)
                        (new_file_refs files fr))), w)
  end.
Proof.
  intros Hk. unfold insert_file_references.
  destruct (search file_ref_section_re content) as [m|]; [|reflexivity].
  rewrite (bind_returns _ _ _ _ _ (for_each_lookup fr file_ref_line files w Hk)). reflexivity.
Qed.

Lemma insert_group_children_run (files : list text) (fr : gmap text text)
    (content : text) (w : World) :
  keys_present files fr ->
  insert_group_children files fr content w =
  match search models_group_re content with
  | None => (Returns None, printed (str "Error: Could not find Models group") w)
  | Some m =>
      (Returns (Some (insert_at content (m_end_of content m 2)
                        (new_children files fr))), w)
  end.
Proof.
  intros Hk. unfold insert_group_children.
  destruct (search models_group_re content) as [m|]; [|reflexivity].
  rewrite (bind_returns _ _ _ _ _ (for_each_lookup fr group_child_line files w Hk)). reflexivity.
Qed.

Lemma insert_build_phase_files_run (files : list text) (br : gmap text text)
    (content : text) (w : World) :
  keys_present files br ->
  insert_build_phase_files files br content w =
  match search sources_build_phase_re content with
  | None =>
      (Returns None, printed (str "Error: Could not find Sources build phase") w)
  | Some m =>
      (Returns (Some (insert_at content (m_end_of content m 2)
                        (new_build_files files br))), w)
  end.
Proof.
  intros Hk. unfold insert_build_phase_files.
  destruct (search sources_build_phase_re content) as [m|]; [|reflexivity].
  rewrite (bind_returns _ _ _ _ _ (for_each_lookup br build_phase_line files w Hk)). reflexivity.
Qed.

Lemma insert_build_files_run (files : list text) (fr br : gmap text text)
    (content : text) (w : World) :
  keys_present files fr ->
  keys_present files br ->
  insert_build_files files fr br content w =
  match search build_file_section_re content with
  | None =>
      (Returns None, printed (str "Error: Could not find PBXBuildFile section") w)
  | Some m =>
      (Returns (Some (insert_at content (m_end content m - 31)
                        (new_pbx_build_files files fr br))), w)
  end.
Proof.
  intros Hkf Hkb. unfold insert_build_files.
  destruct (search build_file_section_re content) as [m|]; [|reflexivity].
  rewrite (bind_returns _ _ _ _ _ (for_each_lookup2 br fr build_file_line files w Hkb Hkf)). reflexivity.
Qed.

(** Reading leaves the world as it is. *)
Lemma read_file_world (path : text) (w : World) : (read_file path w).2 = w.
Proof.
  unfold read_file. destruct (disk w !! path) as [[|bytes]|]; try reflexivity.
  destruct (utf8_valid bytes); reflexivity.
Qed.

Lemma read_file_returns (path : text) (w : World) (c0 : text) :
  (read_file path w).1 = Returns c0 -> read_file path w = (Returns c0, w).
Proof.
  intros H. rewrite (surjective_pairing (read_file path w)), H, read_file_world.
  reflexivity.
Qed.

(** Without a carriage return the text read is the text stored. *)
Lemma universal_newlines_id (s : text) :
  CR ∉ s -> universal_newlines s = s.
Proof.
  induction s as [|c s IH]; intros Hn; [reflexivity|].
  apply not_elem_of_cons in Hn as [Hc Hs]. cbn [universal_newlines].
  destruct (decide (c = CR)); [congruence|]. by rewrite IH.
Qed.

Lemma read_file_File (path : text) (w : World) (bytes c0 : text) :
  disk w !! path = Some (File bytes) ->
  (read_file path w).1 = Returns c0 ->
  utf8_valid bytes = true /\ c0 = universal_newlines bytes.
Proof.
  unfold read_file. intros ->. destruct (utf8_valid bytes); [|discriminate].
  intros [= <-]. split; reflexivity.
Qed.

(** The whole function, once the file was read and the identifiers drawn. *)
Lemma add_files_after_ids (path : text) (files : list text) (w w1 : World)
    (c0 : text) (fr br : gmap text text) :
  (read_file path w).1 = Returns c0 ->
  generate_ids files ∅ ∅ w = (Returns (fr, br), w1) ->
  add_files_to_pbxproj path files w =
  or_fail (insert_file_references files fr c0) (fun content =>
  or_fail (insert_group_children files fr content) (fun content =>
  or_fail (insert_build_phase_files files br content) (fun content =>
  or_fail (insert_build_files files fr br content) (fun content =>
    write_file path content ;;;
    print (success_line files) ;;;
    ret true)))) w1.
Proof.
  intros Hread Hids. unfold add_files_to_pbxproj.
  rewrite (bind_returns _ _ w w c0) by (apply read_file_returns, Hread).
  rewrite (bind_returns _ _ _ _ _ Hids). reflexivity.
Qed.

Lemma or_fail_Some (step : M (option text)) (next : text -> M bool)
    (w w' : World) (c : text) :
  step w = (Returns (Some c), w') -> or_fail step next w = next c w'.
Proof. intros H. unfold or_fail. by rewrite (bind_returns _ _ _ _ _ H). Qed.

Lemma or_fail_None (step : M (option text)) (next : text -> M bool)
    (w w' : World) :
  step w = (Returns None, w') -> or_fail step next w = (Returns false, w').
Proof. intros H. unfold or_fail. by rewrite (bind_returns _ _ _ _ _ H). Qed.

Lemma generate_ids_world (files : list text) (w w1 : World)
    (fr br : gmap text text) :
  generate_ids files ∅ ∅ w = (Returns (fr, br), w1) ->
  w1 = mkWorld (disk w) (stdout w) (entropy w) (drawn w + 2 * length files)
  /\ keys_present files fr /\ keys_present files br.
Proof.
  intros H. destruct (generate_ids_spec files ∅ ∅ w)
    as (fr' & br' & Hrun & Hkf & Hkb & _).
  rewrite Hrun in H. injection H as <- <- <-. done.
Qed.

(** A step that returns a text leaves the world as it was. *)
Lemma insert_file_references_Some (files : list text) (fr : gmap text text)
    (c c' : text) (w : World) :
  keys_present files fr ->
  (insert_file_references files fr c w).1 = Returns (Some c') ->
  insert_file_references files fr c w = (Returns (Some c'), w)
  /\ exists m, search file_ref_section_re c = Some m
               /\ c' = insert_at c (m_end c m - 35) (new_file_refs files fr).
Proof.
  intros Hk. rewrite insert_file_references_run by done.
  destruct (search file_ref_section_re c) as [m|]; simpl; [|done].
  intros [= <-]. eauto.
Qed.

Lemma insert_group_children_Some (files : list text) (fr : gmap text text)
    (c c' : text) (w : World) :
  keys_present files fr ->
  (insert_group_children files fr c w).1 = Returns (Some c') ->
  insert_group_children files fr c w = (Returns (Some c'), w)
  /\ exists m, search models_group_re c = Some m
               /\ c' = insert_at c (m_end_of c m 2) (new_children files fr).
Proof.
  intros Hk. rewrite insert_group_children_run by done.
  destruct (search models_group_re c) as [m|]; simpl; [|done].
  intros [= <-]. eauto.
Qed.

Lemma insert_build_phase_files_Some (files : list text) (br : gmap text text)
    (c c' : text) (w : World) :
  keys_present files br ->
  (insert_build_phase_files files br c w).1 = Returns (Some c') ->
  insert_build_phase_files files br c w = (Returns (Some c'), w)
  /\ exists m, search sources_build_phase_re c = Some m
               /\ c' = insert_at c (m_end_of c m 2) (new_build_files files br).
Proof.
  intros Hk. rewrite insert_build_phase_files_run by done.
  destruct (search sources_build_phase_re c) as [m|]; simpl; [|done].
  intros [= <-]. eauto.
Qed.

Lemma insert_build_files_Some (files : list text) (fr br : gmap text text)
    (c c' : text) (w : World) :
  keys_present files fr -> keys_present files br ->
  (insert_build_files files fr br c w).1 = Returns (Some c') ->
  insert_build_files files fr br c w = (Returns (Some c'), w)
  /\ exists m, search build_file_section_re c = Some m
               /\ c' = insert_at c (m_end c m - 31) (new_pbx_build_files files fr br).
Proof.
  intros Hkf Hkb. rewrite insert_build_files_run by done.
  destruct (search build_file_section_re c) as [m|]; simpl; [|done].
  intros [= <-]. eauto.
Qed.

Lemma add_files_success (path : text) (files : list text) (w w1 : World)
    (c0 c4 : text) (fr br : gmap text text) :
  (read_file path w).1 = Returns c0 ->
  generate_ids files ∅ ∅ w = (Returns (fr, br), w1) ->
  all_located files fr br w1 c0 c4 ->
  add_files_to_pbxproj path files w
  = (Returns true, printed (success_line files) (written path c4 w1)).
Proof.
  intros Hread Hids (c1 & c2 & c3 & H1 & H2 & H3 & H4).
  destruct (generate_ids_world _ _ _ _ _ Hids) as (_ & Hkf & Hkb).
  apply insert_file_references_Some in H1 as [H1 _]; [|done].
  apply insert_group_children_Some in H2 as [H2 _]; [|done].
  apply insert_build_phase_files_Some in H3 as [H3 _]; [|done].
  apply insert_build_files_Some in H4 as [H4 _]; [|done..].
  rewrite (add_files_after_ids _ _ _ _ _ _ _ Hread Hids).
  rewrite (or_fail_Some _ _ _ _ _ H1), (or_fail_Some _ _ _ _ _ H2).
  rewrite (or_fail_Some _ _ _ _ _ H3), (or_fail_Some _ _ _ _ _ H4).
  reflexivity.
Qed.

(** The line printed for each region that may be missing. *)
Lemma add_files_failure (path : text) (files : list text) (w w1 : World)
    (c0 : text) (fr br : gmap text text) :
  (read_file path w).1 = Returns c0 ->
  generate_ids files ∅ ∅ w = (Returns (fr, br), w1) ->
  some_not_located files fr br w1 c0 ->
  exists line, add_files_to_pbxproj path files w = (Returns false, printed line w1).
Proof.
  intros Hread Hids Hfail.
  destruct (generate_ids_world _ _ _ _ _ Hids) as (_ & Hkf & Hkb).
  rewrite (add_files_after_ids _ _ _ _ _ _ _ Hread Hids).
  destruct Hfail as [N1|(c1 & H1 & [N2|(c2 & H2 & [N3|(c3 & H3 & N4)])])].
  - eexists. apply or_fail_None.
    rewrite insert_file_references_run by done. rewrite N1. reflexivity.
  - apply insert_file_references_Some in H1 as [H1 _]; [|done].
    rewrite (or_fail_Some _ _ _ _ _ H1).
    eexists. apply or_fail_None.
    rewrite insert_group_children_run by done. rewrite N2. reflexivity.
  - apply insert_file_references_Some in H1 as [H1 _]; [|done].
    apply insert_group_children_Some in H2 as [H2 _]; [|done].
    rewrite (or_fail_Some _ _ _ _ _ H1), (or_fail_Some _ _ _ _ _ H2).
    eexists. apply or_fail_None.
    rewrite insert_build_phase_files_run by done. rewrite N3. reflexivity.
  - apply insert_file_references_Some in H1 as [H1 _]; [|done].
    apply insert_group_children_Some in H2 as [H2 _]; [|done].
    apply insert_build_phase_files_Some in H3 as [H3 _]; [|done].
    rewrite (or_fail_Some _ _ _ _ _ H1), (or_fail_Some _ _ _ _ _ H2).
    rewrite (or_fail_Some _ _ _ _ _ H3).
    eexists. apply or_fail_None.
    rewrite insert_build_files_run by done. rewrite N4. reflexivity.
Qed.

(** Every run that read its file ends in one of the two ways. *)
Lemma located_or_not (files : list text) (fr br : gmap text text) (w : World)
    (c0 : text) :
  keys_present files fr -> keys_present files br ->
  (exists c4, all_located files fr br w c0 c4) \/ some_not_located files fr br w c0.
Proof.
  intros Hkf Hkb. unfold all_located, some_not_located.
  pose proof (insert_file_references_run files fr c0 w Hkf) as E1.
  destruct (search file_ref_section_re c0) as [m1|] eqn:S1; [|by right; left].
  set (c1 := insert_at c0 (m_end c0 m1 - 35) (new_file_refs files fr)) in *.
  apply (f_equal fst) in E1. simpl in E1.
  pose proof (insert_group_children_run files fr c1 w Hkf) as E2.
  destruct (search models_group_re c1) as [m2|] eqn:S2;
    [|right; right; exists c1; split; [done | by left]].
  set (c2 := insert_at c1 (m_end_of c1 m2 2) (new_children files fr)) in *.
  apply (f_equal fst) in E2. simpl in E2.
  pose proof (insert_build_phase_files_run files br c2 w Hkb) as E3.
  destruct (search sources_build_phase_re c2) as [m3|] eqn:S3;
    [|right; right; exists c1; split; [done|]; right; exists c2;
      split; [done | by left]].
  set (c3 := insert_at c2 (m_end_of c2 m3 2) (new_build_files files br)) in *.
  apply (f_equal fst) in E3. simpl in E3.
  pose proof (insert_build_files_run files fr br c3 w Hkf Hkb) as E4.
  destruct (search build_file_section_re c3) as [m4|] eqn:S4.
  - apply (f_equal fst) in E4. simpl in E4.
    left. eexists _, c1, c2, c3. done.
  - right; right; exists c1; split; [done|]; right; exists c2; split; [done|].
    right. exists c3. done.
Qed.

(** Each step splices its fragment into the text it was given. *)
Lemma insert_at_spliced (c : text) (i : Z) (frags : list text) :
  spliced c (join frags) (insert_at c i frags).
Proof.
  exists (slice_to c i), (slice_from c i). split; [|reflexivity].
  symmetry. apply slice_split.
Qed.

Lemma all_located_spliced (files : list text) (fr br : gmap text text)
    (w : World) (c0 c4 : text) :
  keys_present files fr -> keys_present files br ->
  all_located files fr br w c0 c4 ->
  exists c1 c2 c3,
    spliced c0 (join (new_file_refs files fr)) c1
    /\ spliced c1 (join (new_children files fr)) c2
    /\ spliced c2 (join (new_build_files files br)) c3
    /\ spliced c3 (join (new_pbx_build_files files fr br)) c4.
Proof.
  intros Hkf Hkb (c1 & c2 & c3 & H1 & H2 & H3 & H4).
  apply insert_file_references_Some in H1 as (_ & m1 & _ & ->); [|done].
  apply insert_group_children_Some in H2 as (_ & m2 & _ & ->); [|done].
  apply insert_build_phase_files_Some in H3 as (_ & m3 & _ & ->); [|done].
  apply insert_build_files_Some in H4 as (_ & m4 & _ & ->); [|done..].
  eexists _, _, _. repeat split; apply insert_at_spliced.
Qed.

(** The identifier loop always returns. *)
Lemma generate_ids_returns (files : list text) (w : World) :
  generate_ids files ∅ ∅ w
  = (Returns ((drawn_ids files w).1, (drawn_ids files w).2), after_ids files w).
Proof.
  unfold drawn_ids, after_ids.
  destruct (generate_ids_spec files ∅ ∅ w) as (fr & br & -> & _). reflexivity.
Qed.

End RunFacts.

(** ** Properties of the script *)

Import RunFacts.

Lemma spliced_sublist (c fragment c' : text) :
  spliced c fragment c' -> sublist c c'.
Proof.
  intros (a & b & -> & ->). apply sublist_app; [reflexivity|].
  apply sublist_inserts_l. reflexivity.
Qed.

Lemma spliced_length (c fragment c' : text) :
  spliced c fragment c' -> length c' = length c + length fragment.
Proof. intros (a & b & -> & ->). rewrite !length_app. lia. Qed.

(** C2: when one of the four searches finds nothing, the function returns
    False and the disk is what it was; a changed disk means that all four
    regions were found. *)
Theorem C2_failed_locate_writes_nothing (path : text) (files : list text)
    (w w1 : World) (c0 : text) (fr br : gmap text text) (r : outcome bool)
    (w' : World) :
  (read_file path w).1 = Returns c0 ->
  generate_ids files ∅ ∅ w = (Returns (fr, br), w1) ->
  add_files_to_pbxproj path files w = (r, w') ->
  (some_not_located files fr br w1 c0 -> r = Returns false /\ disk w' = disk w)
  /\ (disk w' <> disk w -> exists c4, all_located files fr br w1 c0 c4).
Proof.
  intros Hread Hids Hrun.
  destruct (generate_ids_world _ _ _ _ _ Hids) as (Hw1 & Hkf & Hkb).
  assert (Hfail : some_not_located files fr br w1 c0 ->
                  r = Returns false /\ disk w' = disk w).
  { intros Hnot.
    destruct (add_files_failure _ _ _ _ _ _ _ Hread Hids Hnot) as [line E].
    rewrite E in Hrun. injection Hrun as <- <-. split; [reflexivity|].
    rewrite Hw1. reflexivity. }
  split; [exact Hfail|].
  intros Hchanged.
  destruct (located_or_not files fr br w1 c0 Hkf Hkb) as [Hall|Hnot]; [exact Hall|].
  destruct (Hfail Hnot) as [_ Hsame]. done.
Qed.


Lemma C2_failed_locate_writes_nothing_witness :
  (add_files_to_pbxproj pbxproj_path files_to_add
     (world_with sample_without_models)).1 = Returns false
  /\ disk (add_files_to_pbxproj pbxproj_path files_to_add
             (world_with sample_without_models)).2
     = disk (world_with sample_without_models).
Proof.
  refine (proj1 (C2_failed_locate_writes_nothing pbxproj_path files_to_add
                   (world_with sample_without_models) _ sample_without_models
                   _ _ _ _ _
                   (generate_ids_returns files_to_add
                      (world_with sample_without_models))
                   _) _).
  - vm_compute; reflexivity.
  - apply surjective_pairing.
  - right. eexists. split.
    + vm_compute; reflexivity.
    + left. vm_compute; reflexivity.
Defined.

(** The sample descriptor has the four regions: every step of a run on it
    finds its own. *)
Lemma sample_all_located :
  exists c4,
    all_located files_to_add
      (drawn_ids files_to_add (world_with sample_pbxproj)).1
      (drawn_ids files_to_add (world_with sample_pbxproj)).2
      (after_ids files_to_add (world_with sample_pbxproj))
      sample_pbxproj c4.
Proof.
  eexists. eexists _, _, _.
  split; [|split; [|split]].
  - vm_compute; reflexivity.
  - vm_compute; reflexivity.
  - vm_compute; reflexivity.
  - vm_compute; reflexivity.
Qed.

(** C5: with the path and the file list of the [__main__] block, the process
    exits with 0 when the four regions are found (and the patched text is on
    disk), and with 1 when one of the four searches finds nothing (and the
    disk is untouched). *)
Theorem C5_exit_status (w w1 : World) (c0 : text) (fr br : gmap text text) :
  (read_file pbxproj_path w).1 = Returns c0 ->
  generate_ids files_to_add ∅ ∅ w = (Returns (fr, br), w1) ->
  (forall c4, all_located files_to_add fr br w1 c0 c4 ->
     (exit_status w).1 = 0%Z
     /\ disk (exit_status w).2 = <[pbxproj_path := File c4]> (disk w))
  /\ (some_not_located files_to_add fr br w1 c0 ->
        (exit_status w).1 = 1%Z /\ disk (exit_status w).2 = disk w).
Proof.
  intros Hread Hids.
  destruct (generate_ids_world _ _ _ _ _ Hids) as (Hw1 & _ & _).
  split.
  - intros c4 Hall. unfold exit_status, main.
    rewrite (bind_returns _ _ _ _ _
               (add_files_success _ _ _ _ _ _ _ _ Hread Hids Hall)).
    simpl. rewrite Hw1. done.
  - intros Hnot.
    destruct (add_files_failure _ _ _ _ _ _ _ Hread Hids Hnot) as [line E].
    unfold exit_status, main. rewrite (bind_returns _ _ _ _ _ E).
    simpl. rewrite Hw1. done.
Qed.

Lemma C5_exit_status_witness :
  (exit_status (world_with sample_pbxproj)).1 = 0%Z
  /\ (exit_status (world_with sample_without_models)).1 = 1%Z.
Proof.
  split.
  - destruct sample_all_located as [c4 Hall].
    refine (proj1 (proj1 (C5_exit_status (world_with sample_pbxproj) _
                            sample_pbxproj _ _ _
                            (generate_ids_returns files_to_add
                               (world_with sample_pbxproj))) c4 Hall)).
    vm_compute; reflexivity.
  - refine (proj1 (proj2 (C5_exit_status (world_with sample_without_models) _
                            sample_without_models _ _ _
                            (generate_ids_returns files_to_add
                               (world_with sample_without_models))) _)).
    + vm_compute; reflexivity.
    + right. eexists. split.
      * vm_compute; reflexivity.
      * left. vm_compute; reflexivity.
Defined.

Lemma lookup_map_Some {A B} (g : A -> B) (l : list A) (i : nat) (x : A) :
  l !! i = Some x -> map g l !! i = Some (g x).
Proof. intros H. change (map g l) with (g <$> l). by rewrite list_lookup_fmap, H. Qed.



(** C4, amended: the file is read in text mode, so what a run works on is
    the stored text with every line ending turned into a line feed.  On a
    successful run the text written back is that text with the four
    fragments spliced in one after the other and nothing else touched, and
    no other file changes.  When the descriptor holds no carriage return
    the text read is the text stored, byte for byte, and the text stored is
    a subsequence of the text written. *)
Theorem C4_only_fragments_spliced (path : text) (files : list text)
    (w w1 : World) (bytes c0 c4 : text) (fr br : gmap text text) :
  disk w !! path = Some (File bytes) ->
  (read_file path w).1 = Returns c0 ->
  generate_ids files ∅ ∅ w = (Returns (fr, br), w1) ->
  all_located files fr br w1 c0 c4 ->
  exists w', add_files_to_pbxproj path files w = (Returns true, w')
    /\ disk w' = <[path := File c4]> (disk w)
    /\ c0 = universal_newlines bytes
    /\ (exists c1 c2 c3,
          spliced c0 (join (new_file_refs files fr)) c1
          /\ spliced c1 (join (new_children files fr)) c2
          /\ spliced c2 (join (new_build_files files br)) c3
          /\ spliced c3 (join (new_pbx_build_files files fr br)) c4)
    /\ sublist c0 c4
    /\ length c4
       = length c0 + length (join (new_file_refs files fr))
         + length (join (new_children files fr))
         + length (join (new_build_files files br))
         + length (join (new_pbx_build_files files fr br))
    /\ (CR ∉ bytes -> c0 = bytes /\ sublist bytes c4).
Proof.
  intros Hdisk Hread Hids Hall.
  destruct (generate_ids_world _ _ _ _ _ Hids) as (Hw1 & Hkf & Hkb).
  destruct (all_located_spliced files fr br w1 c0 c4 Hkf Hkb Hall)
    as (c1 & c2 & c3 & S1 & S2 & S3 & S4).
  destruct (read_file_File _ _ _ _ Hdisk Hread) as [_ Hc0].
  assert (Hsub : sublist c0 c4).
  { transitivity c1; [exact (spliced_sublist _ _ _ S1)|].
    transitivity c2; [exact (spliced_sublist _ _ _ S2)|].
    transitivity c3; [exact (spliced_sublist _ _ _ S3)|].
    exact (spliced_sublist _ _ _ S4). }
  eexists. split; [exact (add_files_success _ _ _ _ _ _ _ _ Hread Hids Hall)|].
  split; [unfold printed, written; cbn [disk]; rewrite Hw1; reflexivity|].
  split; [exact Hc0|].
  split; [exists c1, c2, c3; repeat split; assumption|].
  split; [exact Hsub|]. split.
  - rewrite (spliced_length _ _ _ S4), (spliced_length _ _ _ S3).
    rewrite (spliced_length _ _ _ S2), (spliced_length _ _ _ S1). lia.
  - intros Hcr. rewrite (universal_newlines_id _ Hcr) in Hc0.
    split; [exact Hc0|]. rewrite <- Hc0. exact Hsub.
Qed.

Lemma C4_only_fragments_spliced_witness :
  exists c4 w',
    add_files_to_pbxproj pbxproj_path files_to_add (world_with sample_pbxproj)
    = (Returns true, w')
    /\ disk w' = <[pbxproj_path := File c4]> (disk (world_with sample_pbxproj))
    /\ sublist sample_pbxproj c4.
Proof.
  destruct sample_all_located as [c4 Hall].
  assert (Hdisk : disk (world_with sample_pbxproj) !! pbxproj_path
                  = Some (File sample_pbxproj)) by (vm_compute; reflexivity).
  assert (Hread : (read_file pbxproj_path (world_with sample_pbxproj)).1
                  = Returns sample_pbxproj) by (vm_compute; reflexivity).
  assert (Hcr : CR ∉ sample_pbxproj)
    by (apply (bool_decide_eq_true_1 (CR ∉ sample_pbxproj)); vm_compute;
        reflexivity).
  destruct (C4_only_fragments_spliced pbxproj_path files_to_add
              (world_with sample_pbxproj) _ sample_pbxproj sample_pbxproj c4
              _ _ Hdisk Hread
              (generate_ids_returns files_to_add (world_with sample_pbxproj))
              Hall)
    as (w' & Hrun & Hdisk' & _ & _ & _ & _ & Hbytes).
  exists c4, w'. split; [exact Hrun|]. split; [exact Hdisk'|].
  exact (proj2 (Hbytes Hcr)).
Defined.

(** C4 as stated fails: a descriptor stored with CR LF line endings is read
    with line feeds alone; the run succeeds and the text it writes back
    holds no carriage return at all, so the stored text is changed outside
    the four insertion points. *)
Lemma C4_carriage_returns_rewritten :
  disk (world_with sample_crlf) !! pbxproj_path = Some (File sample_crlf)
  /\ CR ∈ sample_crlf
  /\ (add_files_to_pbxproj pbxproj_path files_to_add
        (world_with sample_crlf)).1 = Returns true
  /\ disk (add_files_to_pbxproj pbxproj_path files_to_add
             (world_with sample_crlf)).2 !! pbxproj_path
     = Some (File (written_text pbxproj_path
                     (add_files_to_pbxproj pbxproj_path files_to_add
                        (world_with sample_crlf)).2))
  /\ (CR ∉ written_text pbxproj_path
             (add_files_to_pbxproj pbxproj_path files_to_add
                (world_with sample_crlf)).2)
  /\ ~ (sublist sample_crlf
          (written_text pbxproj_path
             (add_files_to_pbxproj pbxproj_path files_to_add
                (world_with sample_crlf)).2)).
Proof.
  assert (Hin : CR ∈ sample_crlf)
    by (apply (bool_decide_eq_true_1 (CR ∈ sample_crlf)); vm_compute;
        reflexivity).
  assert (Hout : CR ∉ written_text pbxproj_path
                        (add_files_to_pbxproj pbxproj_path files_to_add
                           (world_with sample_crlf)).2)
    by (apply (bool_decide_eq_true_1 (CR ∉ _)); vm_compute; reflexivity).
  split; [vm_compute; reflexivity|]. split; [exact Hin|].
  split; [vm_compute; reflexivity|]. split; [vm_compute; reflexivity|].
  split; [exact Hout|].
  intros Hsub. exact (Hout (elem_of_sublist _ _ _ Hin Hsub)).
Qed.

Module UuidFacts.
Import Uuid.
Local Open Scope N_scope.

Lemma lor_lt_pow2 (a b n : N) : a < 2 ^ n -> b < 2 ^ n -> N.lor a b < 2 ^ n.
Proof.
  intros Ha Hb.
  destruct (N.eq_dec (N.lor a b) 0) as [->|Hne]; [lia|].
  apply N.log2_lt_pow2; [lia|]. rewrite N.log2_lor.
  destruct (N.eq_dec a 0) as [->|Ha0]; destruct (N.eq_dec b 0) as [->|Hb0].
  - by rewrite N.lor_0_l in Hne.
  - rewrite N.max_r by (simpl; lia). apply N.log2_lt_pow2; lia.
  - rewrite N.max_l by (simpl; lia). apply N.log2_lt_pow2; lia.
  - apply N.max_lub_lt; apply N.log2_lt_pow2; lia.
Qed.

Lemma uuid4_int_bound (r : N) : r < 2 ^ 128 -> uuid4_int r < 2 ^ 128.
Proof.
  intros Hr. unfold uuid4_int.
  apply lor_lt_pow2; [|vm_compute; reflexivity].
  eapply N.le_lt_trans; [apply N.ldiff_le_l|].
  apply lor_lt_pow2; [|vm_compute; reflexivity].
  eapply N.le_lt_trans; [apply N.ldiff_le_l|]. exact Hr.
Qed.

Lemma hex_digits_rev_length (fuel w : nat) (n : N) :
  n < 16 ^ N.of_nat w -> (length (hex_digits_rev fuel n) <= w)%nat.
Proof.
  revert w n. induction fuel as [|fuel IH]; intros w n Hn; simpl; [lia|].
  destruct (N.eqb_spec n 0) as [->|Hne]; simpl; [lia|].
  destruct w as [|w]; [simpl in Hn; lia|].
  apply le_n_S, IH.
  rewrite Nat2N.inj_succ, N.pow_succ_r' in Hn.
  apply N.Div0.div_lt_upper_bound. exact Hn.
Qed.

Lemma format_032x_length (n : N) : n < 2 ^ 128 -> length (format_032x n) = 32%nat.
Proof.
  intros Hn. unfold format_032x.
  assert (Hlen : (length (format_x n) <= 32)%nat).
  { unfold format_x. destruct (n =? 0); [simpl; lia|].
    rewrite length_rev. apply hex_digits_rev_length.
    change (16 ^ N.of_nat 32) with (2 ^ 128). exact Hn. }
  rewrite length_app, repeat_length. lia.
Qed.


Lemma hex_digit_upper (d : N) : is_upper_hex (upper_char (hex_digit d)) = true.
Proof.
  unfold hex_digit. generalize (N.to_nat d). intros k.
  do 16 (destruct k as [|k]; [reflexivity|]). destruct k; reflexivity.
Qed.

Lemma hex_digits_rev_upper (fuel : nat) (n : N) :
  Forall (fun c => is_upper_hex (upper_char c) = true) (hex_digits_rev fuel n).
Proof.
  revert n. induction fuel as [|fuel IH]; intros n; simpl; [constructor|].
  destruct (n =? 0); [constructor|].
  constructor; [apply hex_digit_upper | apply IH].
Qed.

Lemma format_032x_upper (n : N) :
  Forall (fun c => is_upper_hex (upper_char c) = true) (format_032x n).
Proof.
  unfold format_032x. apply Forall_app. split.
  - apply Forall_forall. intros c Hc. apply list_elem_of_In, repeat_spec in Hc as ->.
    reflexivity.
  - unfold format_x. destruct (n =? 0).
    + repeat constructor.
    + apply Forall_rev, hex_digits_rev_upper.
Qed.

Lemma join_singletons (s : text) : join (map (fun c => [c]) s) = s.
Proof. induction s as [|c s IH]; simpl; [reflexivity|]. by rewrite IH. Qed.

Lemma upper_hex_not_cont (c : ascii) : is_upper_hex c = true -> is_cont c = false.
Proof.
  unfold is_upper_hex, is_cont. cbn zeta. intros H.
  apply andb_false_iff. left. apply Nat.leb_gt.
  apply orb_true_iff in H as [H|H]; apply andb_true_iff in H as [_ H];
    apply Nat.leb_le in H; lia.
Qed.

(** The digits are ASCII: one byte each. *)
Lemma upper_hex_ascii (n : N) :
  Forall (fun c => is_cont c = false) (upper (format_032x n)).
Proof.
  unfold upper. change (map upper_char ?l) with (upper_char <$> l).
  apply Forall_fmap. eapply Forall_impl; [apply format_032x_upper|].
  intros c Hc. apply upper_hex_not_cont, Hc.
Qed.

Lemma token_eq (r : N) : token r = take 24 (upper (uuid4_hex r)).
Proof.
  unfold token. rewrite join_singletons. unfold slice_to.
  pose proof (upper_hex_ascii (uuid4_int (r mod 2 ^ 128))) as Ha.
  fold (uuid4_hex r) in Ha.
  assert (Hl : length (upper (uuid4_hex r)) = 32%nat).
  { unfold upper, uuid4_hex. rewrite length_map. apply format_032x_length.
    apply uuid4_int_bound, N.mod_lt. discriminate. }
  rewrite slice_index_in_range.
  - rewrite (byte_offset_ascii _ _ Ha), Hl. reflexivity.
  - unfold len. rewrite (char_count_ascii _ Ha), Hl. lia.
Qed.

Lemma token_length (r : N) : length (token r) = 24%nat.
Proof.
  rewrite token_eq, length_take. unfold upper, uuid4_hex.
  rewrite length_map, format_032x_length; [reflexivity|].
  apply uuid4_int_bound, N.mod_lt. discriminate.
Qed.

Lemma token_upper_hex (r : N) : forallb is_upper_hex (token r) = true.
Proof.
  rewrite token_eq. apply forallb_forall. intros c Hc.
  apply list_elem_of_In, elem_of_take in Hc as (i & Hi & _).
  unfold upper in Hi. change (map upper_char ?l) with (upper_char <$> l) in Hi.
  rewrite list_lookup_fmap in Hi.
  destruct (uuid4_hex r !! i) as [c0|] eqn:E; [|discriminate].
  injection Hi as <-.
  pose proof (format_032x_upper (uuid4_int (r mod 2 ^ 128))) as HF.
  rewrite Forall_forall in HF. apply HF.
  apply list_elem_of_lookup. eauto.
Qed.


Lemma size_nat_gt (n : N) : n < 2 ^ N.of_nat (N.size_nat n).
Proof.
  destruct n as [|p]; [reflexivity|]. simpl.
  induction p as [p IH|p IH|]; cbn [Pos.size_nat].
  - rewrite Nat2N.inj_succ, N.pow_succ_r'. lia.
  - rewrite Nat2N.inj_succ, N.pow_succ_r'. lia.
  - reflexivity.
Qed.

Lemma fixed_hex_rev_0 (w : nat) : fixed_hex_rev w 0 = repeat "0"%char w.
Proof.
  induction w as [|w IH]; [reflexivity|].
  cbn [fixed_hex_rev repeat]. change (0 / 16) with 0. rewrite IH. reflexivity.
Qed.

Lemma hex_digits_rev_pad (fuel w : nat) (n : N) :
  n < 2 ^ N.of_nat fuel -> n < 16 ^ N.of_nat w ->
  hex_digits_rev fuel n
    ++ repeat "0"%char (w - length (hex_digits_rev fuel n))
  = fixed_hex_rev w n.
Proof.
  revert w n. induction fuel as [|fuel IH]; intros w n Hf Hw.
  - assert (n = 0) as -> by (simpl in Hf; lia).
    simpl. rewrite Nat.sub_0_r. symmetry. apply fixed_hex_rev_0.
  - cbn [hex_digits_rev]. destruct (N.eqb_spec n 0) as [->|Hne].
    + simpl. rewrite Nat.sub_0_r. symmetry. apply fixed_hex_rev_0.
    + destruct w as [|w]; [simpl in Hw; lia|].
      cbn [length fixed_hex_rev]. rewrite <- app_comm_cons. f_equal.
      rewrite Nat.sub_succ. apply IH.
      * rewrite Nat2N.inj_succ, N.pow_succ_r' in Hf.
        apply N.Div0.div_lt_upper_bound. lia.
      * rewrite Nat2N.inj_succ, N.pow_succ_r' in Hw.
        apply N.Div0.div_lt_upper_bound. exact Hw.
Qed.

Lemma rev_repeat {A} (x : A) (k : nat) : rev (repeat x k) = repeat x k.
Proof.
  induction k as [|k IH]; [reflexivity|].
  simpl. rewrite IH. symmetry. apply repeat_cons.
Qed.

Lemma format_032x_fixed (n : N) :
  n < 2 ^ 128 -> format_032x n = rev (fixed_hex_rev 32 n).
Proof.
  intros Hn. unfold format_032x, format_x.
  destruct (N.eqb_spec n 0) as [->|Hne]; [reflexivity|].
  rewrite <- (hex_digits_rev_pad (N.size_nat n) 32 n).
  - rewrite rev_app_distr, rev_repeat, length_rev. reflexivity.
  - apply size_nat_gt.
  - change (16 ^ N.of_nat 32) with (2 ^ 128). exact Hn.
Qed.

Lemma fixed_hex_rev_length (w : nat) (n : N) : length (fixed_hex_rev w n) = w.
Proof. revert n. induction w as [|w IH]; intros n; simpl; [reflexivity|]. by rewrite IH. Qed.

Lemma fixed_hex_rev_drop (k w : nat) (n : N) :
  drop k (fixed_hex_rev (k + w) n) = fixed_hex_rev w (n / 16 ^ N.of_nat k).
Proof.
  revert n. induction k as [|k IH]; intros n.
  - simpl. by rewrite N.div_1_r.
  - cbn [Nat.add fixed_hex_rev drop]. rewrite IH.
    rewrite Nat2N.inj_succ, N.pow_succ_r', N.Div0.div_div. reflexivity.
Qed.

(** The token is the 24 leading hexadecimal digits of the UUID. *)
Lemma token_digits (r : N) :
  token r
  = upper (rev (fixed_hex_rev 24 (uuid4_int (r mod 2 ^ 128) / 2 ^ 32))).
Proof.
  rewrite token_eq. unfold uuid4_hex.
  rewrite format_032x_fixed by (apply uuid4_int_bound, N.mod_lt; discriminate).
  unfold upper. rewrite firstn_map.
  f_equal. rewrite firstn_rev, fixed_hex_rev_length.
  change (32 - 24)%nat with 8%nat. f_equal.
  apply (fixed_hex_rev_drop 8 24).
Qed.

Lemma hex_value_digit (d : N) :
  d < 16 -> hex_value (upper_char (hex_digit d)) = d.
Proof.
  intros Hd. rewrite <- (N2Nat.id d) at 2. unfold hex_digit.
  assert (Hk : (N.to_nat d < 16)%nat) by lia.
  revert Hk. generalize (N.to_nat d). intros k Hk.
  do 16 (destruct k as [|k]; [reflexivity|]). lia.
Qed.

Lemma fixed_hex_rev_inj (w : nat) (a b : N) :
  a < 16 ^ N.of_nat w -> b < 16 ^ N.of_nat w ->
  upper (fixed_hex_rev w a) = upper (fixed_hex_rev w b) -> a = b.
Proof.
  revert a b. induction w as [|w IH]; intros a b Ha Hb.
  - simpl in Ha, Hb. lia.
  - rewrite Nat2N.inj_succ, N.pow_succ_r' in Ha, Hb.
    cbn [fixed_hex_rev upper map]. intros [= Hd Hrest].
    apply (f_equal hex_value) in Hd.
    rewrite !hex_value_digit in Hd by (apply N.mod_lt; discriminate).
    apply IH in Hrest; [|apply N.Div0.div_lt_upper_bound; lia..].
    rewrite (N.Div0.div_mod a 16), (N.Div0.div_mod b 16). congruence.
Qed.

(** Two draws give the same token exactly when their UUIDs agree on the 96
    leading bits. *)
Lemma token_eq_iff (r1 r2 : N) :
  token r1 = token r2
  <-> uuid4_int (r1 mod 2 ^ 128) / 2 ^ 32 = uuid4_int (r2 mod 2 ^ 128) / 2 ^ 32.
Proof.
  rewrite !token_digits. split; [|by intros ->].
  intros H. unfold upper in H. rewrite !map_rev in H. apply rev_inj in H.
  apply (fixed_hex_rev_inj 24); [| |exact H].
  - apply N.Div0.div_lt_upper_bound.
    change (2 ^ 32 * 16 ^ N.of_nat 24) with (2 ^ 128).
    apply uuid4_int_bound, N.mod_lt. discriminate.
  - apply N.Div0.div_lt_upper_bound.
    change (2 ^ 32 * 16 ^ N.of_nat 24) with (2 ^ 128).
    apply uuid4_int_bound, N.mod_lt. discriminate.
Qed.

End UuidFacts.

Import UuidFacts.

(** C6: whatever the entropy source delivers, [generate_uuid] returns a
    string of exactly 24 characters, each of them one of 0-9 and A-F. *)
Theorem C6_generate_uuid_shape (w : World) :
  exists t w', generate_uuid w = (Returns t, w')
    /\ length t = 24 /\ forallb Uuid.is_upper_hex t = true.
Proof.
  eexists _, _. split; [reflexivity|].
  split; [apply token_length | apply token_upper_hex].
Qed.

(** C7, amended: each call takes the next draw of the entropy source and
    leaves the source itself alone, and two calls return the same token
    exactly when the UUIDs built from their draws agree on the 96 leading
    bits, the 24 digits that are kept.  Nothing in the script compares the
    tokens it generates. *)
Theorem C7_tokens_equal_iff (w w' : World) :
  ((generate_uuid w).1 = (generate_uuid w').1
   <-> Uuid.leading_bits (entropy w (drawn w))
       = Uuid.leading_bits (entropy w' (drawn w')))
  /\ drawn (generate_uuid w).2 = S (drawn w)
  /\ entropy (generate_uuid w).2 = entropy w.
Proof.
  split; [|split; reflexivity].
  unfold generate_uuid, Uuid.leading_bits. cbn [fst].
  rewrite <- token_eq_iff. split; [intros [= H]; exact H | intros ->; reflexivity].
Qed.

(** C7 as stated fails: with an entropy source that counts, the two calls
    made for one filename draw different values, 0 and 1, and return the
    same token, so the reference identifier and the membership identifier of
    the file are equal. *)
Lemma C7_tokens_can_collide :
  entropy counting_world 0 <> entropy counting_world 1
  /\ (generate_uuid counting_world).1
     = (generate_uuid (generate_uuid counting_world).2).1
  /\ (drawn_ids files_to_add counting_world).1 !! str "Activity.swift"
     = (drawn_ids files_to_add counting_world).2 !! str "Activity.swift"
  /\ (drawn_ids files_to_add counting_world).1 !! str "Activity.swift"
     = Some (str "000000000000400080000000").
Proof.
  split; [discriminate|].
  split; [vm_compute; reflexivity|].
  split; vm_compute; reflexivity.
Qed.

Lemma last_occurrence (files : list text) (f : text) :
  f ∈ files ->
  exists k, files !! k = Some f /\ forall l, k < l -> files !! l <> Some f.
Proof.
  induction files as [|x fs IH]; intros Hin; [by apply elem_of_nil in Hin|].
  destruct (decide (f ∈ fs)) as [Hfs|Hfs].
  - destruct (IH Hfs) as (k & Hk & Hlast). exists (S k). split; [exact Hk|].
    intros l Hl. destruct l as [|l]; [lia|]. simpl. apply Hlast. lia.
  - apply elem_of_cons in Hin as [->|Hin]; [|contradiction].
    exists 0. split; [reflexivity|].
    intros l Hl Hf. destruct l as [|l]; [lia|]. simpl in Hf.
    apply Hfs. apply list_elem_of_lookup. eauto.
Qed.

(** The sample descriptor has the four regions also for the list that names
    one file twice. *)
Lemma repeated_all_located :
  exists c4,
    all_located repeated_files
      (drawn_ids repeated_files spread_world).1
      (drawn_ids repeated_files spread_world).2
      (after_ids repeated_files spread_world)
      sample_pbxproj c4.
Proof.
  eexists. eexists _, _, _.
  split; [|split; [|split]].
  - vm_compute; reflexivity.
  - vm_compute; reflexivity.
  - vm_compute; reflexivity.
  - vm_compute; reflexivity.
Qed.

(** C9: when a filename occurs at two places of [files_to_add], both
    dictionaries hold for it the pair drawn at its last occurrence, and in
    each of the four fragments that a successful run splices into the text
    it writes, the records at the two places are the same text, spelled out
    here, carrying that one pair. *)
Theorem C9_duplicates_share_last_ids (path : text) (files : list text)
    (w w1 : World) (c0 c4 : text) (fr br : gmap text text) (i j : nat)
    (f : text) :
  (read_file path w).1 = Returns c0 ->
  generate_ids files ∅ ∅ w = (Returns (fr, br), w1) ->
  all_located files fr br w1 c0 c4 ->
  files !! i = Some f -> files !! j = Some f -> i <> j ->
  exists k file_ref build_ref,
    files !! k = Some f /\ (forall l, k < l -> files !! l <> Some f)
    /\ file_ref = Uuid.token (entropy w (drawn w + 2 * k))
    /\ build_ref = Uuid.token (entropy w (drawn w + 2 * k + 1))
    /\ fr !! f = Some file_ref /\ br !! f = Some build_ref
    /\ (exists w', add_files_to_pbxproj path files w = (Returns true, w')
                   /\ disk w' !! path = Some (File c4))
    /\ exists refs children phase decls : list text,
         (exists c1 c2 c3,
            spliced c0 (join refs) c1
            /\ spliced c1 (join children) c2
            /\ spliced c2 (join phase) c3
            /\ spliced c3 (join decls) c4)
         /\ forall n, n = i \/ n = j ->
              refs !! n
              = Some ([TAB; TAB] ++ file_ref ++ str " /* " ++ f
                        ++ str " */ = {isa = PBXFileReference; lastKnownFileType = sourcecode.swift; path = "
                        ++ f ++ str "; sourceTree = " ++ [DQUOTE]
                        ++ str "<group>" ++ [DQUOTE] ++ str "; };" ++ [NL])
              /\ children !! n
                 = Some ([TAB; TAB; TAB; TAB] ++ file_ref ++ str " /* " ++ f
                           ++ str " */," ++ [NL])
              /\ phase !! n
                 = Some ([TAB; TAB; TAB; TAB] ++ build_ref ++ str " /* " ++ f
                           ++ str " in Sources */," ++ [NL])
              /\ decls !! n
                 = Some ([TAB; TAB] ++ build_ref ++ str " /* " ++ f
                           ++ str " in Sources */ = {isa = PBXBuildFile; fileRef = "
                           ++ file_ref ++ str " /* " ++ f ++ str " */; };" ++ [NL]).
Proof.
  intros Hread Hids Hall Hi Hj Hne.
  assert (Hin : f ∈ files) by (apply list_elem_of_lookup; eauto).
  destruct (last_occurrence files f Hin) as (k & Hk & Hlast).
  destruct (generate_ids_world _ _ _ _ _ Hids) as (_ & Hkf & Hkb).
  destruct (generate_ids_spec files ∅ ∅ w) as (fr' & br' & Hrun & _ & _ & _ & Hat).
  pose proof Hids as Hids'. rewrite Hrun in Hids'. injection Hids' as -> -> _.
  destruct (Hat k f Hk Hlast) as [Hfr Hbr].
  exists k, (Uuid.token (entropy w (drawn w + 2 * k))),
    (Uuid.token (entropy w (drawn w + 2 * k + 1))).
  split; [exact Hk|]. split; [exact Hlast|].
  split; [reflexivity|]. split; [reflexivity|].
  split; [exact Hfr|]. split; [exact Hbr|]. split.
  { eexists. split; [exact (add_files_success _ _ _ _ _ _ _ _ Hread Hids Hall)|].
    unfold printed, written; cbn [disk]. apply lookup_insert_eq. }
  exists (new_file_refs files fr), (new_children files fr),
    (new_build_files files br), (new_pbx_build_files files fr br).
  split; [by apply (all_located_spliced files fr br w1)|].
  intros n Hn.
  assert (Hfn : files !! n = Some f) by (destruct Hn as [->| ->]; assumption).
  unfold new_file_refs, new_children, new_build_files, new_pbx_build_files.
  rewrite (lookup_map_Some (fun f => file_ref_line (fr !!! f) f) _ _ _ Hfn).
  rewrite (lookup_map_Some (fun f => group_child_line (fr !!! f) f) _ _ _ Hfn).
  rewrite (lookup_map_Some (fun f => build_phase_line (br !!! f) f) _ _ _ Hfn).
  rewrite (lookup_map_Some
             (fun f => build_file_line (br !!! f) (fr !!! f) f) _ _ _ Hfn).
  rewrite (lookup_total_correct _ _ _ Hfr), (lookup_total_correct _ _ _ Hbr).
  split; [reflexivity|]. split; [reflexivity|]. split; reflexivity.
Qed.

Lemma C9_duplicates_share_last_ids_witness :
  (drawn_ids repeated_files spread_world).1 !! str "A.swift"
  = Some (str "000000500000400080000000")
  /\ (drawn_ids repeated_files spread_world).2 !! str "A.swift"
     = Some (str "000000600000400080000000")
  /\ Uuid.token (entropy spread_world 0) = str "000000100000400080000000".
Proof.
  destruct repeated_all_located as [c4 Hall].
  assert (Hread : (read_file pbxproj_path spread_world).1 = Returns sample_pbxproj)
    by (vm_compute; reflexivity).
  destruct (C9_duplicates_share_last_ids pbxproj_path repeated_files
              spread_world _ sample_pbxproj c4 _ _ 0 2 (str "A.swift") Hread
              (generate_ids_returns repeated_files spread_world) Hall
              eq_refl eq_refl)
    as (k & r & b & Hk & Hlast & -> & -> & Hfr & Hbr & _); [lia|].
  assert (Hk2 : k = 2).
  { destruct k as [|[|[|k]]].
    - exfalso. apply (Hlast 2); [lia | reflexivity].
    - vm_compute in Hk. discriminate Hk.
    - reflexivity.
    - vm_compute in Hk. discriminate Hk. }
  subst k. rewrite Hfr, Hbr.
  split; [vm_compute; reflexivity|]. split; vm_compute; reflexivity.
Defined.

Import SearchFacts.

(** In a delimited section the fragment lands one character before the end
    marker: the offset is the end of the match less the length of the marker
    and of a line break, and the match stops where the marker stops. *)
Lemma insert_before_last_char (pre B mid E post : text) (frags : list text) :
  Exists (fun c => is_cont c = false) B ->
  exists x ch,
    pre ++ B ++ mid = x ++ ch /\ one_char ch
    /\ insert_at (pre ++ B ++ mid ++ E ++ post)
         (len (take (length pre + length B + length mid + length E)
                 (pre ++ B ++ mid ++ E ++ post))
          - len (E ++ [NL])) frags
       = x ++ join frags ++ ch ++ E ++ post.
Proof.
  intros HB.
  destruct (last_char_split (pre ++ B ++ mid)) as (x & ch & Hx & Hch).
  { apply Exists_app. right. apply Exists_app. by left. }
  exists x, ch. split; [exact Hx|]. split; [exact Hch|].
  assert (Heq : pre ++ B ++ mid ++ E ++ post = x ++ ch ++ E ++ post).
  { transitivity ((pre ++ B ++ mid) ++ E ++ post).
    - rewrite <- !app_assoc. reflexivity.
    - rewrite Hx, <- app_assoc. reflexivity. }
  assert (Htake : take (length pre + length B + length mid + length E)
                    (pre ++ B ++ mid ++ E ++ post) = x ++ ch ++ E).
  { transitivity (take (length (x ++ ch ++ E)) ((x ++ ch ++ E) ++ post)).
    - f_equal.
      + apply (f_equal (@length ascii)) in Hx. rewrite !length_app in Hx.
        rewrite !length_app. lia.
      + rewrite Heq, <- !app_assoc. reflexivity.
    - apply take_app_length. }
  rewrite Htake, Heq.
  replace (len (x ++ ch ++ E) - len (E ++ [NL]))%Z with (len x).
  - apply insert_at_app. by apply one_char_boundary.
  - unfold len. rewrite !char_count_app, (one_char_count _ Hch). simpl. lia.
Qed.

Lemma end_marker_insertion_offset (B E subject : text) (m : match_obj)
    (frags : list text) :
  Exists (fun c => is_cont c = false) B ->
  search (section_re B E) subject = Some m ->
  exists pre ch post,
    subject = pre ++ ch ++ E ++ post /\ one_char ch
    /\ insert_at subject (m_end subject m - len (E ++ [NL])) frags
       = pre ++ join frags ++ ch ++ E ++ post.
Proof.
  intros HB H.
  apply search_section_Some in H as (pre & mid & post & -> & _ & Hstop).
  destruct (insert_before_last_char pre B mid E post frags HB)
    as (x & ch & Hx & Hch & Hins).
  exists x, ch, post. split; [|split; [exact Hch|]].
  - transitivity ((pre ++ B ++ mid) ++ E ++ post).
    + rewrite <- !app_assoc. reflexivity.
    + rewrite Hx, <- app_assoc. reflexivity.
  - unfold m_end. rewrite Hstop. exact Hins.
Qed.

(** C3 fails on the sample: the new record is put one character before the
    end marker of the section, ahead of the line break that precedes the
    marker, in the file-reference section and in the build-file section
    alike, and not immediately before the marker. *)
Theorem C3_inserted_one_character_early :
  let E1 := str "/* End PBXFileReference section */" in
  let F1 := file_ref_line one_file_ref (str "A.swift") in
  let E4 := str "/* End PBXBuildFile section */" in
  let F4 := build_file_line one_build_ref one_file_ref (str "A.swift") in
  (lines sample_file_ref_section = file_ref_section_head ++ [NL] ++ E1 ++ [NL]
   /\ (insert_file_references one_file one_file_refs
         (lines sample_file_ref_section) (world_with [])).1
      = Returns (Some (file_ref_section_head ++ F1 ++ [NL] ++ E1 ++ [NL]))
   /\ file_ref_section_head ++ F1 ++ [NL] ++ E1 ++ [NL]
      <> file_ref_section_head ++ [NL] ++ F1 ++ E1 ++ [NL])
  /\ (lines sample_build_file_section
      = build_file_section_head ++ [NL] ++ E4 ++ [NL]
      /\ (insert_build_files one_file one_file_refs one_build_refs
            (lines sample_build_file_section) (world_with [])).1
         = Returns (Some (build_file_section_head ++ F4 ++ [NL] ++ E4 ++ [NL]))
      /\ build_file_section_head ++ F4 ++ [NL] ++ E4 ++ [NL]
         <> build_file_section_head ++ [NL] ++ F4 ++ E4 ++ [NL]).
Proof.
  intros E1 F1 E4 F4. split; (split; [|split]).
  - vm_compute; reflexivity.
  - vm_compute; reflexivity.
  - intros H. apply app_inv_head in H. vm_compute in H. discriminate.
  - vm_compute; reflexivity.
  - vm_compute; reflexivity.
  - intros H. apply app_inv_head in H. vm_compute in H. discriminate.
Qed.

Import ReFacts.

Lemma models_group_re_shape :
  models_group_re = list_field_re (str " /* Models */ = {") (str "children = (").
Proof. reflexivity. Qed.

Lemma sources_build_phase_re_shape :
  sources_build_phase_re = list_field_re (str " /* Sources */ = {") (str "files = (").
Proof. reflexivity. Qed.

(** Where a record of the shape starts somewhere, the search succeeds, the
    record it returns starts at or before every such place, and the
    fragment goes to the end of the list content of that record. *)
Lemma list_field_insertion (L F subject : text) (q : nat) (frags : list text) :
  record_starts L F subject q ->
  exists m pre id body kids post,
    search (list_field_re L F) subject = Some m
    /\ record_at L F subject (length pre) pre id body kids post
    /\ (forall q', record_starts L F subject q' -> length pre <= q')
    /\ insert_at subject (m_end_of subject m 2) frags
       = pre ++ id ++ L ++ body ++ F ++ kids ++ join frags ++ str ");" ++ post.
Proof.
  intros (pre0 & id0 & body0 & kids0 & post0 & Hrec0).
  destruct (search_list_field_is_Some _ _ _ _ _ _ _ _ _ Hrec0) as [m Hm].
  destruct (search_list_field_Some _ _ _ _ Hm)
    as (pre & id & body & kids & post & Hrec & Hend & Hleft).
  pose proof (rec_start _ _ _ _ _ _ _ _ _ Hrec) as Hstart.
  exists m, pre, id, body, kids, post. split; [exact Hm|].
  split; [rewrite Hstart; exact Hrec|]. split.
  - intros q' (pre' & id' & body' & kids' & post' & Hrec').
    rewrite Hstart. eapply Hleft. exact Hrec'.
  - rewrite Hend. rewrite (rec_subject _ _ _ _ _ _ _ _ _ Hrec).
    replace (pre ++ id ++ L ++ body ++ F ++ kids ++ str ");" ++ post)
      with ((pre ++ id ++ L ++ body ++ F ++ kids) ++ str ");" ++ post)
      by (rewrite <- !app_assoc; reflexivity).
    rewrite insert_at_app by reflexivity. rewrite <- !app_assoc. reflexivity.
Qed.

(** C10: when the text holds two records that match the Models pattern (or
    the Sources pattern), the step finds the record that starts leftmost,
    puts the new entries at the end of the list of that record and nowhere
    else, and leaves the world as it is: nothing is printed. *)
Theorem C10_leftmost_record_only (files : list text) (fr br : gmap text text)
    (w : World) (cM cS : text) (m1 m2 s1 s2 : nat) :
  keys_present files fr -> keys_present files br ->
  record_starts (str " /* Models */ = {") (str "children = (") cM m1 ->
  record_starts (str " /* Models */ = {") (str "children = (") cM m2 ->
  m1 < m2 ->
  record_starts (str " /* Sources */ = {") (str "files = (") cS s1 ->
  record_starts (str " /* Sources */ = {") (str "files = (") cS s2 ->
  s1 < s2 ->
  (exists pre id body kids post,
     record_at (str " /* Models */ = {") (str "children = (") cM (length pre)
       pre id body kids post
     /\ length pre <= m1
     /\ (forall q, record_starts (str " /* Models */ = {") (str "children = (") cM q ->
           length pre <= q)
     /\ insert_group_children files fr cM w
        = (Returns (Some (pre ++ id ++ str " /* Models */ = {" ++ body
                            ++ str "children = (" ++ kids
                            ++ join (new_children files fr)
                            ++ str ");" ++ post)), w))
  /\ (exists pre id body kids post,
        record_at (str " /* Sources */ = {") (str "files = (") cS (length pre)
          pre id body kids post
        /\ length pre <= s1
        /\ (forall q, record_starts (str " /* Sources */ = {") (str "files = (") cS q ->
              length pre <= q)
        /\ insert_build_phase_files files br cS w
           = (Returns (Some (pre ++ id ++ str " /* Sources */ = {" ++ body
                               ++ str "files = (" ++ kids
                               ++ join (new_build_files files br)
                               ++ str ");" ++ post)), w)).
Proof.
  intros Hkf Hkb HM1 HM2 HM HS1 HS2 HS. split.
  - destruct (list_field_insertion _ _ _ _ (new_children files fr) HM1)
      as (m & pre & id & body & kids & post & Hm & Hrec & Hleft & Hins).
    exists pre, id, body, kids, post.
    split; [exact Hrec|]. split; [exact (Hleft _ HM1)|]. split; [exact Hleft|].
    rewrite insert_group_children_run by exact Hkf.
    rewrite models_group_re_shape, Hm, Hins. reflexivity.
  - destruct (list_field_insertion _ _ _ _ (new_build_files files br) HS1)
      as (m & pre & id & body & kids & post & Hm & Hrec & Hleft & Hins).
    exists pre, id, body, kids, post.
    split; [exact Hrec|]. split; [exact (Hleft _ HS1)|]. split; [exact Hleft|].
    rewrite insert_build_phase_files_run by exact Hkb.
    rewrite sources_build_phase_re_shape, Hm, Hins. reflexivity.
Qed.


Lemma forallb_all_accepted (cl : cclass) (s : text) :
  forallb (accepts cl) s = true -> all_accepted cl s.
Proof.
  intros H. apply Forall_forall. intros c Hc.
  rewrite forallb_forall in H. apply H, list_elem_of_In, Hc.
Qed.

Lemma record_check_sound (L F subject : text) (q nb nk : nat) :
  record_check L F subject q nb nk = true -> record_starts L F subject q.
Proof.
  unfold record_check. cbn zeta. rewrite !andb_true_iff, !negb_true_iff.
  intros [[[[[[[H1 H2] H3] H4] H5] H6] H7] H8].
  apply bool_decide_eq_true_1 in H1, H2, H3.
  apply bool_decide_eq_false_1 in H5, H7.
  eexists _, _, _, _, _. constructor; [exact H1 | exact H2 | exact H3 | | | | |].
  - by apply forallb_all_accepted.
  - exact H5.
  - by apply forallb_all_accepted.
  - exact H7.
  - by apply forallb_all_accepted.
Qed.

Lemma C10_leftmost_record_only_witness :
  exists pre id body kids post,
    length pre <= 2
    /\ insert_group_children files_to_add
         (drawn_ids files_to_add (world_with sample_two_of_each)).1
         sample_two_of_each
         (after_ids files_to_add (world_with sample_two_of_each))
       = (Returns
            (Some (pre ++ id ++ str " /* Models */ = {" ++ body
                     ++ str "children = (" ++ kids
                     ++ join (new_children files_to_add
                                (drawn_ids files_to_add
                                   (world_with sample_two_of_each)).1)
                     ++ str ");" ++ post)),
          after_ids files_to_add (world_with sample_two_of_each)).
Proof.
  pose proof (generate_ids_world _ _ _ _ _
                (generate_ids_returns files_to_add
                   (world_with sample_two_of_each))) as (_ & Hkf & Hkb).
  assert (M1 : record_starts (str " /* Models */ = {") (str "children = (")
                 sample_two_of_each 2)
    by (apply (record_check_sound _ _ _ 2 23 48); vm_compute; reflexivity).
  assert (M2 : record_starts (str " /* Models */ = {") (str "children = (")
                 sample_two_of_each 136)
    by (apply (record_check_sound _ _ _ 136 4 48); vm_compute; reflexivity).
  assert (S1 : record_starts (str " /* Sources */ = {") (str "files = (")
                 sample_two_of_each 251)
    by (apply (record_check_sound _ _ _ 251 35 59); vm_compute; reflexivity).
  assert (S2 : record_starts (str " /* Sources */ = {") (str "files = (")
                 sample_two_of_each 406)
    by (apply (record_check_sound _ _ _ 406 4 59); vm_compute; reflexivity).
  destruct (proj1 (C10_leftmost_record_only files_to_add _ _
                     (after_ids files_to_add (world_with sample_two_of_each))
                     sample_two_of_each sample_two_of_each 2 136 251 406
                     Hkf Hkb M1 M2 ltac:(lia) S1 S2 ltac:(lia)))
    as (pre & id & body & kids & post & _ & Hle & _ & Hins).
  exists pre, id, body, kids, post. split; [exact Hle | exact Hins].
Defined.











(** ** Further properties of the script *)

Lemma add_files_missing (path : text) (files : list text) (w : World) :
  disk w !! path = None ->
  add_files_to_pbxproj path files w = (Raises (FileNotFoundError path), w).
Proof.
  intros H. unfold add_files_to_pbxproj, bind, read_file. rewrite H. reflexivity.
Qed.

(** An exception of the read ends the function at once. *)
Lemma add_files_read_raises (path : text) (files : list text) (w : World) (e : exn) :
  (read_file path w).1 = Raises e ->
  add_files_to_pbxproj path files w = (Raises e, w).
Proof.
  intros H. unfold add_files_to_pbxproj, bind.
  pose proof (read_file_world path w) as Hw.
  destruct (read_file path w) as [o w0]. simpl in H, Hw. subst. reflexivity.
Qed.

Lemma read_file_no_key_error (path : text) (w : World) (key : text) :
  (read_file path w).1 <> Raises (KeyError key).
Proof.
  unfold read_file. destruct (disk w !! path) as [[|bytes]|]; try discriminate.
  destruct (utf8_valid bytes); discriminate.
Qed.

(** The line printed for each region that may be missing. *)
Lemma add_files_failure_line (path : text) (files : list text) (w w1 : World)
    (c0 : text) (fr br : gmap text text) :
  (read_file path w).1 = Returns c0 ->
  generate_ids files ∅ ∅ w = (Returns (fr, br), w1) ->
  (search file_ref_section_re c0 = None ->
   add_files_to_pbxproj path files w
   = (Returns false, printed (str "Error: Could not find PBXFileReference section") w1))
  /\ (forall c1,
        (insert_file_references files fr c0 w1).1 = Returns (Some c1) ->
        search models_group_re c1 = None ->
        add_files_to_pbxproj path files w
        = (Returns false, printed (str "Error: Could not find Models group") w1))
  /\ (forall c1 c2,
        (insert_file_references files fr c0 w1).1 = Returns (Some c1) ->
        (insert_group_children files fr c1 w1).1 = Returns (Some c2) ->
        search sources_build_phase_re c2 = None ->
        add_files_to_pbxproj path files w
        = (Returns false, printed (str "Error: Could not find Sources build phase") w1))
  /\ (forall c1 c2 c3,
        (insert_file_references files fr c0 w1).1 = Returns (Some c1) ->
        (insert_group_children files fr c1 w1).1 = Returns (Some c2) ->
        (insert_build_phase_files files br c2 w1).1 = Returns (Some c3) ->
        search build_file_section_re c3 = None ->
        add_files_to_pbxproj path files w
        = (Returns false, printed (str "Error: Could not find PBXBuildFile section") w1)).
Proof.
  intros Hread Hids.
  destruct (generate_ids_world _ _ _ _ _ Hids) as (_ & Hkf & Hkb).
  rewrite (add_files_after_ids _ _ _ _ _ _ _ Hread Hids).
  split; [|split; [|split]].
  - intros N1. apply or_fail_None.
    rewrite insert_file_references_run by exact Hkf. rewrite N1. reflexivity.
  - intros c1 H1 N2.
    apply insert_file_references_Some in H1 as [H1 _]; [|exact Hkf].
    rewrite (or_fail_Some _ _ _ _ _ H1). apply or_fail_None.
    rewrite insert_group_children_run by exact Hkf. rewrite N2. reflexivity.
  - intros c1 c2 H1 H2 N3.
    apply insert_file_references_Some in H1 as [H1 _]; [|exact Hkf].
    apply insert_group_children_Some in H2 as [H2 _]; [|exact Hkf].
    rewrite (or_fail_Some _ _ _ _ _ H1), (or_fail_Some _ _ _ _ _ H2).
    apply or_fail_None.
    rewrite insert_build_phase_files_run by exact Hkb. rewrite N3. reflexivity.
  - intros c1 c2 c3 H1 H2 H3 N4.
    apply insert_file_references_Some in H1 as [H1 _]; [|exact Hkf].
    apply insert_group_children_Some in H2 as [H2 _]; [|exact Hkf].
    apply insert_build_phase_files_Some in H3 as [H3 _]; [|exact Hkb].
    rewrite (or_fail_Some _ _ _ _ _ H1), (or_fail_Some _ _ _ _ _ H2).
    rewrite (or_fail_Some _ _ _ _ _ H3). apply or_fail_None.
    rewrite insert_build_files_run by (exact Hkf || exact Hkb). rewrite N4. reflexivity.
Qed.

(** A run that read its file ends in one of two ways. *)
Lemma add_files_cases (path : text) (files : list text) (w : World) (c0 : text) :
  (read_file path w).1 = Returns c0 ->
  (exists c4,
     add_files_to_pbxproj path files w
     = (Returns true,
        printed (success_line files) (written path c4 (after_ids files w))))
  \/ (exists line, line ∈ error_lines
        /\ add_files_to_pbxproj path files w
           = (Returns false, printed line (after_ids files w))).
Proof.
  intros Hread.
  pose proof (generate_ids_returns files w) as Hids.
  destruct (generate_ids_world _ _ _ _ _ Hids) as (_ & Hkf & Hkb).
  destruct (add_files_failure_line _ _ _ _ _ _ _ Hread Hids) as (F1 & F2 & F3 & F4).
  destruct (located_or_not files _ _ (after_ids files w) c0 Hkf Hkb)
    as [[c4 Hall]|[N1|(c1 & H1 & [N2|(c2 & H2 & [N3|(c3 & H3 & N4)])])]].
  - left. exists c4. exact (add_files_success _ _ _ _ _ _ _ _ Hread Hids Hall).
  - right. eexists. split; [|exact (F1 N1)]. unfold error_lines. set_solver.
  - right. eexists. split; [|exact (F2 _ H1 N2)]. unfold error_lines. set_solver.
  - right. eexists. split; [|exact (F3 _ _ H1 H2 N3)]. unfold error_lines. set_solver.
  - right. eexists. split; [|exact (F4 _ _ _ H1 H2 H3 N4)]. unfold error_lines. set_solver.
Qed.

Lemma after_ids_world (files : list text) (w : World) :
  after_ids files w
  = mkWorld (disk w) (stdout w) (entropy w) (drawn w + 2 * length files).
Proof.
  exact (proj1 (generate_ids_world _ _ _ _ _ (generate_ids_returns files w))).
Qed.

(** X1: when the descriptor does not exist the function raises
    FileNotFoundError for that path before anything else happens: no
    identifier is drawn, nothing is printed and the disk is as it was. *)
Theorem X1_missing_file_raises (path : text) (files : list text) (w : World) :
  disk w !! path = None ->
  add_files_to_pbxproj path files w = (Raises (FileNotFoundError path), w).
Proof. apply add_files_missing. Qed.

Lemma X1_missing_file_raises_witness :
  add_files_to_pbxproj pbxproj_path files_to_add no_file_world
  = (Raises (FileNotFoundError pbxproj_path), no_file_world).
Proof. apply X1_missing_file_raises. reflexivity. Defined.

(** X2: the main block does not catch the exception: without the descriptor
    the process ends with status 1 and neither of its two closing lines is
    printed. *)
Theorem X2_missing_file_exit_status (w : World) :
  disk w !! pbxproj_path = None ->
  exit_status w = (1%Z, w).
Proof.
  intros H. unfold exit_status, main.
  unfold bind. rewrite (add_files_missing _ _ _ H). reflexivity.
Qed.

Lemma X2_missing_file_exit_status_witness :
  exit_status no_file_world = (1%Z, no_file_world).
Proof. apply X2_missing_file_exit_status. reflexivity. Defined.

(** X3: the dictionary lookups of the four rendering loops never fail:
    whatever the world and the list, the function does not raise KeyError. *)
Theorem X3_no_key_error (path : text) (files : list text) (w : World)
    (key : text) :
  (add_files_to_pbxproj path files w).1 <> Raises (KeyError key).
Proof.
  destruct ((read_file path w).1) as [c0|e] eqn:Hread.
  - destruct (add_files_cases path files w c0 Hread) as [[c4 ->]|(line & _ & ->)];
      discriminate.
  - rewrite (add_files_read_raises _ _ _ _ Hread). cbn [fst].
    intros [= ->]. exact (read_file_no_key_error _ _ _ Hread).
Qed.

(** X4: the identifiers are drawn before any region is looked for: a run
    that read its file has consumed two draws per element of the list,
    whether it succeeds or not, and leaves the entropy source as it was. *)
Theorem X4_two_draws_per_file (path : text) (files : list text) (w : World)
    (c0 : text) :
  (read_file path w).1 = Returns c0 ->
  drawn (add_files_to_pbxproj path files w).2 = drawn w + 2 * length files
  /\ entropy (add_files_to_pbxproj path files w).2 = entropy w.
Proof.
  intros Hread.
  destruct (add_files_cases path files w c0 Hread) as [[c4 ->]|(line & _ & ->)];
    unfold printed, written; cbn [snd drawn entropy];
    rewrite after_ids_world; split; reflexivity.
Qed.

Lemma X4_two_draws_per_file_witness :
  drawn (add_files_to_pbxproj pbxproj_path files_to_add
           (world_with sample_without_models)).2 = 0 + 2 * 2.
Proof.
  refine (proj1 (X4_two_draws_per_file pbxproj_path files_to_add
                   (world_with sample_without_models) sample_without_models _)).
  vm_compute; reflexivity.
Defined.

(** X5: a failing run prints exactly one line, the one of the first region
    that is not found, and stops there: the later regions are not looked
    for and nothing is written. *)
Theorem X5_first_missing_region_reported (path : text) (files : list text)
    (w w1 : World) (c0 : text) (fr br : gmap text text) :
  (read_file path w).1 = Returns c0 ->
  generate_ids files ∅ ∅ w = (Returns (fr, br), w1) ->
  (search file_ref_section_re c0 = None ->
   (add_files_to_pbxproj path files w).1 = Returns false
   /\ stdout (add_files_to_pbxproj path files w).2
      = stdout w ++ [str "Error: Could not find PBXFileReference section"])
  /\ (forall c1,
        (insert_file_references files fr c0 w1).1 = Returns (Some c1) ->
        search models_group_re c1 = None ->
        (add_files_to_pbxproj path files w).1 = Returns false
        /\ stdout (add_files_to_pbxproj path files w).2
           = stdout w ++ [str "Error: Could not find Models group"])
  /\ (forall c1 c2,
        (insert_file_references files fr c0 w1).1 = Returns (Some c1) ->
        (insert_group_children files fr c1 w1).1 = Returns (Some c2) ->
        search sources_build_phase_re c2 = None ->
        (add_files_to_pbxproj path files w).1 = Returns false
        /\ stdout (add_files_to_pbxproj path files w).2
           = stdout w ++ [str "Error: Could not find Sources build phase"])
  /\ (forall c1 c2 c3,
        (insert_file_references files fr c0 w1).1 = Returns (Some c1) ->
        (insert_group_children files fr c1 w1).1 = Returns (Some c2) ->
        (insert_build_phase_files files br c2 w1).1 = Returns (Some c3) ->
        search build_file_section_re c3 = None ->
        (add_files_to_pbxproj path files w).1 = Returns false
        /\ stdout (add_files_to_pbxproj path files w).2
           = stdout w ++ [str "Error: Could not find PBXBuildFile section"]).
Proof.
  intros Hread Hids.
  destruct (generate_ids_world _ _ _ _ _ Hids) as (Hw1 & _ & _).
  destruct (add_files_failure_line _ _ _ _ _ _ _ Hread Hids) as (F1 & F2 & F3 & F4).
  split; [|split; [|split]].
  - intros N1. rewrite (F1 N1), Hw1. split; reflexivity.
  - intros c1 H1 N2. rewrite (F2 c1 H1 N2), Hw1. split; reflexivity.
  - intros c1 c2 H1 H2 N3. rewrite (F3 c1 c2 H1 H2 N3), Hw1. split; reflexivity.
  - intros c1 c2 c3 H1 H2 H3 N4. rewrite (F4 c1 c2 c3 H1 H2 H3 N4), Hw1.
    split; reflexivity.
Qed.

Lemma X5_first_missing_region_reported_witness :
  stdout (add_files_to_pbxproj pbxproj_path files_to_add
            (world_with sample_without_models)).2
  = stdout (world_with sample_without_models)
      ++ [str "Error: Could not find Models group"].
Proof.
  refine (proj2 (proj1 (proj2 (X5_first_missing_region_reported
                   pbxproj_path files_to_add
                   (world_with sample_without_models) _ sample_without_models
                   _ _ _
                   (generate_ids_returns files_to_add
                      (world_with sample_without_models)))) _ _ _)).
  - vm_compute; reflexivity.
  - vm_compute; reflexivity.
  - vm_compute; reflexivity.
Defined.

(** X6: when the function returns, the main block has printed two lines
    and no more: the count line and the success line with status 0 when it
    returned True, the line of the missing region and the failure line with
    status 1 and the disk as it was when it returned False. *)
Theorem X6_main_prints_two_lines (w w' : World) (ok : bool) :
  add_files_to_pbxproj pbxproj_path files_to_add w = (Returns ok, w') ->
  (ok = true ->
   (main w).1 = Returns 0%Z
   /\ stdout (main w).2
      = stdout w ++ [str "Successfully added 2 files to Xcode project";
                     success_mark_line])
  /\ (ok = false ->
      exists line, line ∈ error_lines
        /\ (main w).1 = Returns 1%Z
        /\ stdout (main w).2 = stdout w ++ [line; failure_mark_line]
        /\ disk (main w).2 = disk w).
Proof.
  intros Hrun.
  destruct ((read_file pbxproj_path w).1) as [c0|e] eqn:Hread;
    [|rewrite (add_files_read_raises _ _ _ _ Hread) in Hrun; discriminate].
  unfold main. rewrite (bind_returns _ _ _ _ _ Hrun).
  destruct (add_files_cases pbxproj_path files_to_add w c0 Hread)
    as [[c4 E]|(line & Hline & E)]; rewrite E in Hrun;
    injection Hrun as <- <-; rewrite after_ids_world.
  - split; [|discriminate]. intros _. split; [reflexivity|].
    unfold print, bind, ret, printed, written; cbn [fst snd stdout].
    rewrite <- app_assoc. reflexivity.
  - split; [discriminate|]. intros _.
    exists line. split; [exact Hline|]. split; [reflexivity|].
    unfold print, bind, ret, printed; cbn [fst snd stdout disk].
    rewrite <- app_assoc. split; reflexivity.
Qed.

Lemma X6_main_prints_two_lines_witness :
  (main (world_with sample_pbxproj)).1 = Returns 0%Z
  /\ stdout (main (world_with sample_pbxproj)).2
     = stdout (world_with sample_pbxproj)
         ++ [str "Successfully added 2 files to Xcode project";
             success_mark_line].
Proof.
  destruct sample_all_located as [c4 Hall].
  assert (Hread : (read_file pbxproj_path (world_with sample_pbxproj)).1
                  = Returns sample_pbxproj) by (vm_compute; reflexivity).
  exact (proj1 (X6_main_prints_two_lines (world_with sample_pbxproj) _ true
                  (add_files_success _ _ _ _ _ _ _ _ Hread
                     (generate_ids_returns files_to_add
                        (world_with sample_pbxproj)) Hall))
           eq_refl).
Defined.

Lemma insert_at_nil (c : text) (i : Z) : insert_at c i [] = c.
Proof. unfold insert_at. simpl. apply slice_split. Qed.

(** X7: with an empty list of filenames the four regions are still looked
    for; when they are there the descriptor is written back with the text
    that was read, no identifier is drawn, and the count line says 0.  The
    bytes on disk are the same after the run when the file held no carriage
    return; otherwise its line endings have become line feeds. *)
Theorem X7_empty_list_rewrites_same_text (path : text) (w : World) (c0 : text) :
  (read_file path w).1 = Returns c0 ->
  is_Some (search file_ref_section_re c0) ->
  is_Some (search models_group_re c0) ->
  is_Some (search sources_build_phase_re c0) ->
  is_Some (search build_file_section_re c0) ->
  add_files_to_pbxproj path [] w
  = (Returns true,
     printed (str "Successfully added 0 files to Xcode project")
       (written path c0 w))
  /\ drawn (add_files_to_pbxproj path [] w).2 = drawn w
  /\ (forall bytes, disk w !! path = Some (File bytes) ->
        c0 = universal_newlines bytes
        /\ (CR ∉ bytes -> disk (add_files_to_pbxproj path [] w).2 = disk w)).
Proof.
  intros Hread [m1 S1] [m2 S2] [m3 S3] [m4 S4].
  assert (E : add_files_to_pbxproj path [] w
              = (Returns true,
                 printed (str "Successfully added 0 files to Xcode project")
                   (written path c0 w))).
  { unfold add_files_to_pbxproj.
    rewrite (bind_returns _ _ w w c0) by (apply read_file_returns, Hread).
    cbn [generate_ids]. unfold bind at 1. unfold ret at 1.
    cbn [fst snd].
    unfold or_fail, insert_file_references, insert_group_children,
      insert_build_phase_files, insert_build_files.
    rewrite S1. cbn [for_each]. unfold bind at 1 2. unfold ret at 1 2.
    rewrite insert_at_nil, S2. unfold bind at 1 2. unfold ret at 1 2.
    rewrite insert_at_nil, S3. unfold bind at 1 2. unfold ret at 1 2.
    rewrite insert_at_nil, S4. unfold bind at 1 2. unfold ret at 1 2.
    rewrite insert_at_nil. reflexivity. }
  rewrite E. split; [reflexivity|]. split; [reflexivity|].
  intros bytes Hdisk.
  destruct (read_file_File _ _ _ _ Hdisk Hread) as [_ Hc0].
  split; [exact Hc0|]. intros Hcr.
  unfold printed, written; cbn [snd disk]. apply insert_id.
  rewrite Hdisk, Hc0, (universal_newlines_id _ Hcr). reflexivity.
Qed.

Lemma X7_empty_list_rewrites_same_text_witness :
  drawn (add_files_to_pbxproj pbxproj_path [] (world_with sample_pbxproj)).2
  = drawn (world_with sample_pbxproj).
Proof.
  refine (proj1 (proj2 (X7_empty_list_rewrites_same_text pbxproj_path
                          (world_with sample_pbxproj) sample_pbxproj _ _ _ _ _))).
  - vm_compute; reflexivity.
  - eexists; vm_compute; reflexivity.
  - eexists; vm_compute; reflexivity.
  - eexists; vm_compute; reflexivity.
  - eexists; vm_compute; reflexivity.
Defined.

(** X17: whatever the outcome, the function touches no file but its own:
    every other path holds after the run what it held before, and the lines
    already printed stay in place. *)
Theorem X17_other_files_untouched (path path' : text) (files : list text)
    (w : World) :
  path' <> path ->
  disk (add_files_to_pbxproj path files w).2 !! path' = disk w !! path'
  /\ stdout w `prefix_of` stdout (add_files_to_pbxproj path files w).2.
Proof.
  intros Hne. destruct ((read_file path w).1) as [c0|e] eqn:Hread.
  - destruct (add_files_cases path files w c0 Hread) as [[c4 ->]|(line & _ & ->)];
      unfold printed, written; cbn [snd disk stdout]; rewrite after_ids_world;
      cbn [disk stdout].
    + split; [apply lookup_insert_ne; congruence | by apply prefix_app_r].
    + split; [reflexivity | by apply prefix_app_r].
  - rewrite (add_files_read_raises _ _ _ _ Hread). split; reflexivity.
Qed.

Lemma X17_other_files_untouched_witness :
  disk (add_files_to_pbxproj pbxproj_path files_to_add
          (world_with sample_pbxproj)).2 !! str "Other.pbxproj"
  = disk (world_with sample_pbxproj) !! str "Other.pbxproj".
Proof.
  refine (proj1 (X17_other_files_untouched pbxproj_path (str "Other.pbxproj")
                   files_to_add (world_with sample_pbxproj) _)).
  vm_compute; discriminate.
Defined.

(** *** Which match a search returns *)

Section Priorities.
Context {R : Type}.
Variable cl : cclass.
Variable k : mstate -> option R.

(** A lazy star stops at the first place where the rest of the pattern
    matches. *)
Lemma lazy_star_first (p : nat) (s : text) (g : gmap nat (nat * nat)) (res : R) :
  lazy_star cl k p s g = Some res ->
  exists w s', s = w ++ s' /\ all_accepted cl w
    /\ k (MState (p + length w) s' g) = Some res
    /\ forall w' s'', s = w' ++ s'' -> length w' < length w ->
         k (MState (p + length w') s'' g) = None.
Proof.
  revert p. induction s as [|c s IH]; intros p; simpl.
  - destruct (k (MState p [] g)) eqn:Hk; [|discriminate].
    intros [= ->]. exists [], []. rewrite Nat.add_0_r.
    split; [reflexivity|]. split; [constructor|]. split; [exact Hk|].
    intros w' s'' _ Hlt. simpl in Hlt. lia.
  - destruct (k (MState p (c :: s) g)) eqn:Hk.
    + intros [= ->]. exists [], (c :: s). rewrite Nat.add_0_r.
      split; [reflexivity|]. split; [constructor|]. split; [exact Hk|].
      intros w' s'' _ Hlt. simpl in Hlt. lia.
    + destruct (accepts cl c) eqn:Hc; [|discriminate].
      intros H. destruct (IH _ H) as (w & s' & -> & Hw & Hk' & Hfirst).
      exists (c :: w), s'.
      split; [reflexivity|]. split; [by constructor|]. split.
      * rewrite <- Hk'. simpl. do 2 f_equal. lia.
      * intros w' s'' Heq Hlt. destruct w' as [|c' w'].
        -- simpl in Heq. subst s''. simpl. rewrite Nat.add_0_r. exact Hk.
        -- simpl in Heq. injection Heq as <- Heq. simpl in Hlt.
           replace (p + length (c :: w')) with (S p + length w') by (simpl; lia).
           apply Hfirst; [exact Heq | lia].
Qed.

(** A greedy star gives back as few characters as it can. *)
Lemma greedy_star_longest (p : nat) (s : text) (g : gmap nat (nat * nat)) (res : R) :
  greedy_star cl k p s g = Some res ->
  exists w s', s = w ++ s' /\ all_accepted cl w
    /\ k (MState (p + length w) s' g) = Some res
    /\ forall w' s'', s = w' ++ s'' -> all_accepted cl w' ->
         length w < length w' ->
         k (MState (p + length w') s'' g) = None.
Proof.
  revert p. induction s as [|c s IH]; intros p.
  - simpl. intros Hk. exists [], []. rewrite Nat.add_0_r.
    split; [reflexivity|]. split; [constructor|]. split; [exact Hk|].
    intros w' s'' Heq _ Hlt. symmetry in Heq. apply app_eq_nil in Heq as [-> _].
    simpl in Hlt. lia.
  - cbn [greedy_star].
    destruct (accepts cl c) eqn:Hc.
    + destruct (greedy_star cl k (S p) s g) as [r|] eqn:Hg.
      * intros [= ->]. destruct (IH _ Hg) as (w & s' & -> & Hw & Hk' & Hlong).
        exists (c :: w), s'.
        split; [reflexivity|]. split; [by constructor|]. split.
        -- rewrite <- Hk'. simpl. do 2 f_equal. lia.
        -- intros w' s'' Heq Hw' Hlt. destruct w' as [|c' w']; [simpl in Hlt; lia|].
           simpl in Heq. injection Heq as <- Heq. inversion Hw'; subst.
           replace (p + length (c :: w')) with (S p + length w') by (simpl; lia).
           apply Hlong; [exact Heq | assumption | simpl in Hlt; lia].
      * intros Hk. exists [], (c :: s). rewrite Nat.add_0_r.
        split; [reflexivity|]. split; [constructor|]. split; [exact Hk|].
        intros w' s'' Heq Hw' Hlt. destruct w' as [|c' w']; [simpl in Hlt; lia|].
        simpl in Heq. injection Heq as <- Heq. inversion Hw' as [|? ? _ Hw'']; subst.
        destruct (k (MState (p + length (c :: w')) s'' g)) as [r|] eqn:Hk'';
          [|reflexivity].
        exfalso.
        assert (Hsome : is_Some (greedy_star cl k (S p) (w' ++ s'') g)).
        { apply greedy_star_complete; [exact Hw''|].
          replace (S p + length w') with (p + length (c :: w')) by (simpl; lia).
          eauto. }
        rewrite Hg in Hsome. by destruct Hsome.
    + intros Hk. exists [], (c :: s). rewrite Nat.add_0_r.
      split; [reflexivity|]. split; [constructor|]. split; [exact Hk|].
      intros w' s'' Heq Hw' Hlt. destruct w' as [|c' w']; [simpl in Hlt; lia|].
      simpl in Heq. injection Heq as <- Heq. inversion Hw' as [|? ? Hc' _]; subst.
      congruence.
Qed.

Lemma greedy_plus_longest (p : nat) (s : text) (g : gmap nat (nat * nat)) (res : R) :
  greedy_plus cl k p s g = Some res ->
  exists w s', s = w ++ s' /\ w <> [] /\ all_accepted cl w
    /\ k (MState (p + length w) s' g) = Some res
    /\ forall w' s'', s = w' ++ s'' -> all_accepted cl w' ->
         length w < length w' ->
         k (MState (p + length w') s'' g) = None.
Proof.
  unfold greedy_plus. destruct s as [|c s]; [discriminate|].
  destruct (accepts cl c) eqn:Hc; [|discriminate].
  intros H. destruct (greedy_star_longest _ _ _ _ H) as (w & s' & -> & Hw & Hk & Hlong).
  exists (c :: w), s'.
  split; [reflexivity|]. split; [discriminate|]. split; [by constructor|]. split.
  - rewrite <- Hk. simpl. do 2 f_equal. lia.
  - intros w' s'' Heq Hw' Hlt. destruct w' as [|c' w']; [simpl in Hlt; lia|].
    simpl in Heq. injection Heq as <- Heq. inversion Hw'; subst.
    replace (p + length (c :: w')) with (S p + length w') by (simpl; lia).
    apply Hlong; [exact Heq | assumption | simpl in Hlt; lia].
Qed.

End Priorities.

(** A delimited section is matched from the leftmost begin marker that has
    an end marker after it to the first end marker that follows it. *)
Lemma search_section_first (B E subject : text) (m : match_obj) :
  search (section_re B E) subject = Some m ->
  exists pre mid post,
    subject = pre ++ B ++ mid ++ E ++ post
    /\ m_start m = length pre
    /\ m_stop m = length pre + length B + length mid + length E
    /\ (forall pre' mid' post', subject = pre' ++ B ++ mid' ++ E ++ post' ->
          length pre <= length pre')
    /\ (forall mid' post', mid ++ E ++ post = mid' ++ E ++ post' ->
          length mid <= length mid').
Proof.
  unfold search. intros H.
  apply search_from_Some in H as (pre & suf & -> & Hat & Hleft).
  simpl in Hat, Hleft.
  unfold match_at, section_re in Hat. cbn [run pos rest caps] in Hat.
  destruct (strip_prefix B suf) as [s1|] eqn:HB; [|discriminate].
  apply strip_prefix_Some in HB as ->.
  apply lazy_star_first in Hat as (mid & s2 & -> & _ & Hk & Hfirst).
  cbn [run pos rest caps] in Hk, Hfirst.
  destruct (strip_prefix E s2) as [post|] eqn:HE; [|discriminate].
  apply strip_prefix_Some in HE as ->.
  injection Hk as <-.
  exists pre, mid, post. cbn [m_start m_stop].
  split; [reflexivity|]. split; [reflexivity|]. split; [lia|]. split.
  - intros pre' mid' post' Heq.
    destruct (decide (length pre <= length pre')) as [|Hlt]; [assumption|].
    exfalso.
    destruct (section_derives B E mid' post' (length pre')) as [st' Hd].
    apply match_at_complete in Hd as [m' Hm'].
    rewrite (Hleft pre' _ Heq) in Hm' by lia. discriminate.
  - intros mid' post' Heq.
    destruct (decide (length mid <= length mid')) as [|Hlt]; [assumption|].
    exfalso.
    specialize (Hfirst mid' (E ++ post') Heq ltac:(lia)).
    rewrite strip_prefix_app in Hfirst. discriminate.
Qed.

Lemma search_section_None_iff (B E subject : text) :
  search (section_re B E) subject = None
  <-> ~ exists pre mid post, subject = pre ++ B ++ mid ++ E ++ post.
Proof.
  split.
  - intros Hnone (pre & mid & post & ->).
    destruct (search_section_is_Some B E pre mid post) as [m Hm]. congruence.
  - intros Hno. destruct (search (section_re B E) subject) as [m|] eqn:Hs;
      [|reflexivity].
    exfalso. apply Hno.
    apply search_section_Some in Hs as (pre & mid & post & -> & _).
    eauto.
Qed.

Lemma search_list_field_None_iff (L F subject : text) :
  search (list_field_re L F) subject = None
  <-> ~ exists q, record_starts L F subject q.
Proof.
  split.
  - intros Hnone (q & pre & id & body & kids & post & Hrec).
    exact (search_list_field_None _ _ _ _ _ _ _ _ _ Hnone Hrec).
  - intros Hno. destruct (search (list_field_re L F) subject) as [m|] eqn:Hs;
      [|reflexivity].
    exfalso. apply Hno.
    apply search_list_field_Some in Hs as (pre & id & body & kids & post & Hrec & _).
    exists (m_start m), pre, id, body, kids, post. exact Hrec.
Qed.

(** Among the records that start where the match starts, the one matched has
    the longest body: the greedy [[^}]+] gives back as little as it can, and
    the list content is the whole run of characters up to the closer. *)
Lemma search_list_field_longest (L F subject : text) (m : match_obj) :
  search (list_field_re L F) subject = Some m ->
  exists pre id body kids post,
    record_at L F subject (m_start m) pre id body kids post
    /\ m_end_of subject m 2 = len (pre ++ id ++ L ++ body ++ F ++ kids)
    /\ forall pre' id' body' kids' post',
         record_at L F subject (m_start m) pre' id' body' kids' post' ->
         length body' <= length body
         /\ (length body' = length body -> kids' = kids).
Proof.
  unfold search. intros H.
  apply search_from_Some in H as (pre & suf & -> & Hat & _).
  simpl in Hat.
  unfold match_at, list_field_re in Hat. cbn [run pos rest caps] in Hat.
  apply exactly_Some in Hat as (id & s1 & -> & Hlen & Hid & Hat).
  cbn [run pos rest caps] in Hat.
  destruct (strip_prefix L s1) as [s2|] eqn:HL; [|discriminate].
  apply strip_prefix_Some in HL as ->.
  apply greedy_plus_longest in Hat
    as (body & s3 & -> & Hbne & Hbody & Hat & Hlong).
  cbn [run pos rest caps] in Hat.
  destruct (strip_prefix F s3) as [s4|] eqn:HF; [|discriminate].
  apply strip_prefix_Some in HF as ->.
  apply greedy_plus_Some in Hat as (kids & s5 & -> & Hkne & Hkids & Hat).
  cbn [run pos rest caps] in Hat.
  destruct (strip_prefix (str ");") s5) as [post|] eqn:HC; [|discriminate].
  apply strip_prefix_Some in HC as ->.
  injection Hat as <-.
  exists pre, id, body, kids, post. cbn [m_start].
  split; [constructor; try assumption; reflexivity|]. split.
  - unfold m_end_of. cbn [m_groups]. rewrite lookup_insert_eq. f_equal.
    transitivity (take (length (pre ++ id ++ L ++ body ++ F ++ kids))
                    ((pre ++ id ++ L ++ body ++ F ++ kids) ++ str ");" ++ post)).
    + f_equal; [rewrite !length_app; lia | rewrite <- !app_assoc; reflexivity].
    + apply take_app_length.
  - intros pre' id' body' kids' post' [Hsub Hst Hlen' Hid' Hbne' Hbody' Hkne' Hkids'].
    apply app_inj_1 in Hsub as [<- Hsub]; [|by rewrite Hst].
    apply app_inj_1 in Hsub as [<- Hsub]; [|by rewrite Hlen'].
    apply app_inv_head in Hsub.
    assert (Hle : length body' <= length body).
    { destruct (decide (length body' <= length body)) as [|Hlt]; [assumption|].
      exfalso.
      specialize (Hlong body' _ Hsub Hbody' ltac:(lia)).
      cbn [run pos rest caps] in Hlong.
      rewrite strip_prefix_app in Hlong.
      clear -Hlong Hkne' Hkids'.
      match type of Hlong with
      | greedy_plus ?c ?k ?p _ ?g = None =>
          assert (Hs : is_Some (greedy_plus c k p (kids' ++ str ");" ++ post') g))
      end.
      { apply greedy_plus_complete; [assumption..|].
        cbn [run pos rest caps]. rewrite strip_prefix_app. eauto. }
      rewrite Hlong in Hs. by destruct Hs. }
    split; [exact Hle|].
    intros Heq. apply app_inj_1 in Hsub as [<- Hsub]; [|lia].
    apply app_inv_head in Hsub.
    (* both list contents stop at the first closing parenthesis *)
    clear -Hsub Hkids Hkids'.
    revert kids' Hsub Hkids'. induction Hkids as [|c kids Hc Hk IH];
      intros kids' Hsub Hkids'.
    + destruct kids' as [|c' kids']; [reflexivity|].
      simpl in Hsub. injection Hsub as <- _.
      inversion Hkids' as [|? ? Hc' _]; subst. discriminate.
    + destruct kids' as [|c' kids'].
      * simpl in Hsub. injection Hsub as -> _. discriminate.
      * simpl in Hsub. injection Hsub as <- Hsub.
        inversion Hkids'; subst. f_equal. by apply IH.
Qed.

Lemma file_ref_section_re_shape :
  file_ref_section_re
  = section_re (str "/* Begin PBXFileReference section */")
      (str "/* End PBXFileReference section */").
Proof. reflexivity. Qed.

Lemma build_file_section_re_shape :
  build_file_section_re
  = section_re (str "/* Begin PBXBuildFile section */")
      (str "/* End PBXBuildFile section */").
Proof. reflexivity. Qed.

(** A step returns nothing only when its search found nothing. *)
Lemma step_None_iff {A} (found : option match_obj) (line : text)
    (body : M (list A)) (f : match_obj -> list A -> text) (w : World) :
  (match found with
   | None => print line ;;; ret None
   | Some m => l <- body ;; ret (Some (f m l))
   end w).1 = Returns None
  <-> found = None.
Proof.
  destruct found as [m|]; [|split; reflexivity].
  unfold bind, ret. destruct (body w) as [[l|e] w']; split; discriminate.
Qed.

(** X9: the file-reference step reports its section as missing exactly when
    the text holds no begin marker followed, further on, by the end marker;
    likewise the build-file step.  What stands between the two markers does
    not matter, line breaks included. *)
Theorem X9_section_missing_iff (files : list text) (fr br : gmap text text)
    (c : text) (w : World) :
  ((insert_file_references files fr c w).1 = Returns None
   <-> ~ exists pre mid post,
           c = pre ++ str "/* Begin PBXFileReference section */" ++ mid
                   ++ str "/* End PBXFileReference section */" ++ post)
  /\ ((insert_build_files files fr br c w).1 = Returns None
      <-> ~ exists pre mid post,
              c = pre ++ str "/* Begin PBXBuildFile section */" ++ mid
                      ++ str "/* End PBXBuildFile section */" ++ post).
Proof.
  split.
  - rewrite <- search_section_None_iff, <- file_ref_section_re_shape.
    unfold insert_file_references. apply step_None_iff.
  - rewrite <- search_section_None_iff, <- build_file_section_re_shape.
    unfold insert_build_files. apply step_None_iff.
Qed.

(** X10: the Models step reports the group as missing exactly when no record
    of the shape starts anywhere in the text: 24 identifier characters, the
    annotation, a non-empty body free of closing braces, the field opener, a
    non-empty list content free of closing parentheses, and the closer;
    likewise the Sources step. *)
Theorem X10_record_missing_iff (files : list text) (fr br : gmap text text)
    (c : text) (w : World) :
  ((insert_group_children files fr c w).1 = Returns None
   <-> ~ exists q, record_starts (str " /* Models */ = {") (str "children = (") c q)
  /\ ((insert_build_phase_files files br c w).1 = Returns None
      <-> ~ exists q, record_starts (str " /* Sources */ = {") (str "files = (") c q).
Proof.
  split.
  - rewrite <- search_list_field_None_iff.
    unfold insert_group_children. apply step_None_iff.
  - rewrite <- search_list_field_None_iff.
    unfold insert_build_phase_files. apply step_None_iff.
Qed.

(** Where a delimited section is found, the fragment goes in one character
    before the first end marker that follows the leftmost begin marker. *)
Lemma section_insertion (B E subject : text) (m : match_obj) (frags : list text) :
  Exists (fun c => is_cont c = false) B ->
  search (section_re B E) subject = Some m ->
  exists pre mid post x ch,
    subject = pre ++ B ++ mid ++ E ++ post
    /\ (forall pre' mid' post', subject = pre' ++ B ++ mid' ++ E ++ post' ->
          length pre <= length pre')
    /\ (forall mid' post', mid ++ E ++ post = mid' ++ E ++ post' ->
          length mid <= length mid')
    /\ pre ++ B ++ mid = x ++ ch /\ one_char ch
    /\ insert_at subject (m_end subject m - len (E ++ [NL])) frags
       = x ++ join frags ++ ch ++ E ++ post.
Proof.
  intros HB H.
  apply search_section_first in H as (pre & mid & post & -> & _ & Hstop & Hleft & Hfirst).
  destruct (insert_before_last_char pre B mid E post frags HB)
    as (x & ch & Hx & Hch & Hins).
  exists pre, mid, post, x, ch.
  split; [reflexivity|]. split; [exact Hleft|]. split; [exact Hfirst|].
  split; [exact Hx|]. split; [exact Hch|].
  unfold m_end. rewrite Hstop. exact Hins.
Qed.

(** X11: a delimited section is matched lazily: the match starts at the
    leftmost begin marker that has an end marker after it and stops at the
    first end marker that follows, and the fragment goes in one character,
    of however many bytes, before that end marker. *)
Theorem X11_section_ends_at_first_end_marker (files : list text)
    (fr br : gmap text text) (c c' : text) (w : World) :
  keys_present files fr -> keys_present files br ->
  ((insert_file_references files fr c w).1 = Returns (Some c') ->
   exists pre mid post x ch,
     c = pre ++ str "/* Begin PBXFileReference section */" ++ mid
             ++ str "/* End PBXFileReference section */" ++ post
     /\ (forall pre' mid' post',
           c = pre' ++ str "/* Begin PBXFileReference section */" ++ mid'
                    ++ str "/* End PBXFileReference section */" ++ post' ->
           length pre <= length pre')
     /\ (forall mid' post',
           mid ++ str "/* End PBXFileReference section */" ++ post
           = mid' ++ str "/* End PBXFileReference section */" ++ post' ->
           length mid <= length mid')
     /\ pre ++ str "/* Begin PBXFileReference section */" ++ mid = x ++ ch
     /\ one_char ch
     /\ c' = x ++ join (new_file_refs files fr)
               ++ ch ++ str "/* End PBXFileReference section */" ++ post)
  /\ ((insert_build_files files fr br c w).1 = Returns (Some c') ->
      exists pre mid post x ch,
        c = pre ++ str "/* Begin PBXBuildFile section */" ++ mid
                ++ str "/* End PBXBuildFile section */" ++ post
        /\ (forall pre' mid' post',
              c = pre' ++ str "/* Begin PBXBuildFile section */" ++ mid'
                       ++ str "/* End PBXBuildFile section */" ++ post' ->
              length pre <= length pre')
        /\ (forall mid' post',
              mid ++ str "/* End PBXBuildFile section */" ++ post
              = mid' ++ str "/* End PBXBuildFile section */" ++ post' ->
              length mid <= length mid')
        /\ pre ++ str "/* Begin PBXBuildFile section */" ++ mid = x ++ ch
        /\ one_char ch
        /\ c' = x ++ join (new_pbx_build_files files fr br)
                  ++ ch ++ str "/* End PBXBuildFile section */" ++ post).
Proof.
  intros Hkf Hkb. split.
  - intros H. apply insert_file_references_Some in H as (_ & m & Hm & ->);
      [|exact Hkf].
    rewrite file_ref_section_re_shape in Hm.
    assert (HB : Exists (fun c => is_cont c = false)
                   (str "/* Begin PBXFileReference section */"))
      by (apply Exists_cons_hd; reflexivity).
    destruct (section_insertion _ _ _ _ (new_file_refs files fr) HB Hm)
      as (pre & mid & post & x & ch & Hc & Hleft & Hfirst & Hx & Hch & Hins).
    exists pre, mid, post, x, ch.
    split; [exact Hc|]. split; [exact Hleft|]. split; [exact Hfirst|].
    split; [exact Hx|]. split; [exact Hch | exact Hins].
  - intros H. apply insert_build_files_Some in H as (_ & m & Hm & ->);
      [|exact Hkf|exact Hkb].
    rewrite build_file_section_re_shape in Hm.
    assert (HB : Exists (fun c => is_cont c = false)
                   (str "/* Begin PBXBuildFile section */"))
      by (apply Exists_cons_hd; reflexivity).
    destruct (section_insertion _ _ _ _ (new_pbx_build_files files fr br) HB Hm)
      as (pre & mid & post & x & ch & Hc & Hleft & Hfirst & Hx & Hch & Hins).
    exists pre, mid, post, x, ch.
    split; [exact Hc|]. split; [exact Hleft|]. split; [exact Hfirst|].
    split; [exact Hx|]. split; [exact Hch | exact Hins].
Qed.

(** The fragment of a record step goes to the end of the list content of
    the record matched, which has the longest body among the records that
    start there. *)
Lemma list_field_longest_insertion (L F subject : text) (m : match_obj)
    (frags : list text) :
  search (list_field_re L F) subject = Some m ->
  exists pre id body kids post,
    record_at L F subject (length pre) pre id body kids post
    /\ (forall pre' id' body' kids' post',
          record_at L F subject (length pre) pre' id' body' kids' post' ->
          length body' <= length body
          /\ (length body' = length body -> kids' = kids))
    /\ insert_at subject (m_end_of subject m 2) frags
       = pre ++ id ++ L ++ body ++ F ++ kids ++ join frags ++ str ");" ++ post.
Proof.
  intros H.
  apply search_list_field_longest in H
    as (pre & id & body & kids & post & Hrec & Hend & Hlong).
  pose proof (rec_start _ _ _ _ _ _ _ _ _ Hrec) as Hstart.
  rewrite <- Hstart in Hrec, Hlong.
  exists pre, id, body, kids, post.
  split; [exact Hrec|]. split; [exact Hlong|].
  rewrite Hend, (rec_subject _ _ _ _ _ _ _ _ _ Hrec).
  replace (pre ++ id ++ L ++ body ++ F ++ kids ++ str ");" ++ post)
    with ((pre ++ id ++ L ++ body ++ F ++ kids) ++ str ");" ++ post)
    by (rewrite <- !app_assoc; reflexivity).
  rewrite insert_at_app by reflexivity. rewrite <- !app_assoc. reflexivity.
Qed.

(** X12: the body of a record is matched greedily: among the records of the
    shape that start where the match starts, the one matched has the longest
    body, which settles its list content too; the new entries go to the end
    of that list content. *)
Theorem X12_record_body_is_longest (files : list text) (fr br : gmap text text)
    (c c' : text) (w : World) :
  keys_present files fr -> keys_present files br ->
  ((insert_group_children files fr c w).1 = Returns (Some c') ->
   exists pre id body kids post,
     record_at (str " /* Models */ = {") (str "children = (") c (length pre)
       pre id body kids post
     /\ (forall pre' id' body' kids' post',
           record_at (str " /* Models */ = {") (str "children = (") c (length pre)
             pre' id' body' kids' post' ->
           length body' <= length body
           /\ (length body' = length body -> kids' = kids))
     /\ c' = pre ++ id ++ str " /* Models */ = {" ++ body ++ str "children = ("
               ++ kids ++ join (new_children files fr) ++ str ");" ++ post)
  /\ ((insert_build_phase_files files br c w).1 = Returns (Some c') ->
      exists pre id body kids post,
        record_at (str " /* Sources */ = {") (str "files = (") c (length pre)
          pre id body kids post
        /\ (forall pre' id' body' kids' post',
              record_at (str " /* Sources */ = {") (str "files = (") c (length pre)
                pre' id' body' kids' post' ->
              length body' <= length body
              /\ (length body' = length body -> kids' = kids))
        /\ c' = pre ++ id ++ str " /* Sources */ = {" ++ body ++ str "files = ("
                  ++ kids ++ join (new_build_files files br) ++ str ");" ++ post).
Proof.
  intros Hkf Hkb. split.
  - intros H. apply insert_group_children_Some in H as (_ & m & Hm & ->);
      [|exact Hkf].
    exact (list_field_longest_insertion _ _ _ _ (new_children files fr) Hm).
  - intros H. apply insert_build_phase_files_Some in H as (_ & m & Hm & ->);
      [|exact Hkb].
    exact (list_field_longest_insertion _ _ _ _ (new_build_files files br) Hm).
Qed.

Lemma X11_section_ends_at_first_end_marker_witness :
  exists pre mid post x ch,
    sample_pbxproj
    = pre ++ str "/* Begin PBXFileReference section */" ++ mid
          ++ str "/* End PBXFileReference section */" ++ post
    /\ pre ++ str "/* Begin PBXFileReference section */" ++ mid = x ++ ch
    /\ one_char ch
    /\ (insert_file_references files_to_add
          (drawn_ids files_to_add (world_with sample_pbxproj)).1
          sample_pbxproj (after_ids files_to_add (world_with sample_pbxproj))).1
       = Returns
           (Some (x ++ join (new_file_refs files_to_add
                               (drawn_ids files_to_add (world_with sample_pbxproj)).1)
                    ++ ch ++ str "/* End PBXFileReference section */" ++ post)).
Proof.
  pose proof (generate_ids_world _ _ _ _ _
                (generate_ids_returns files_to_add (world_with sample_pbxproj)))
    as (_ & Hkf & Hkb).
  assert (H : exists c',
             (insert_file_references files_to_add
                (drawn_ids files_to_add (world_with sample_pbxproj)).1
                sample_pbxproj
                (after_ids files_to_add (world_with sample_pbxproj))).1
             = Returns (Some c'))
    by (eexists; vm_compute; reflexivity).
  destruct H as [c' H].
  destruct (proj1 (X11_section_ends_at_first_end_marker files_to_add _ _
                     sample_pbxproj c'
                     (after_ids files_to_add (world_with sample_pbxproj))
                     Hkf Hkb) H)
    as (pre & mid & post & x & ch & Hc & _ & _ & Hx & Hch & Hc').
  exists pre, mid, post, x, ch.
  split; [exact Hc|]. split; [exact Hx|]. split; [exact Hch|].
  rewrite H, Hc'. reflexivity.
Defined.

Lemma X12_record_body_is_longest_witness :
  exists pre id body kids post,
    record_at (str " /* Models */ = {") (str "children = (") sample_pbxproj
      (length pre) pre id body kids post
    /\ (insert_group_children files_to_add
          (drawn_ids files_to_add (world_with sample_pbxproj)).1
          sample_pbxproj (after_ids files_to_add (world_with sample_pbxproj))).1
       = Returns
           (Some (pre ++ id ++ str " /* Models */ = {" ++ body
                    ++ str "children = (" ++ kids
                    ++ join (new_children files_to_add
                               (drawn_ids files_to_add (world_with sample_pbxproj)).1)
                    ++ str ");" ++ post)).
Proof.
  pose proof (generate_ids_world _ _ _ _ _
                (generate_ids_returns files_to_add (world_with sample_pbxproj)))
    as (_ & Hkf & Hkb).
  assert (H : exists c',
             (insert_group_children files_to_add
                (drawn_ids files_to_add (world_with sample_pbxproj)).1
                sample_pbxproj
                (after_ids files_to_add (world_with sample_pbxproj))).1
             = Returns (Some c'))
    by (eexists; vm_compute; reflexivity).
  destruct H as [c' H].
  destruct (proj1 (X12_record_body_is_longest files_to_add _ _
                     sample_pbxproj c'
                     (after_ids files_to_add (world_with sample_pbxproj))
                     Hkf Hkb) H)
    as (pre & id & body & kids & post & Hrec & _ & Hc').
  exists pre, id, body, kids, post.
  split; [exact Hrec|]. rewrite H, Hc'. reflexivity.
Defined.

Lemma char_count_pos (s : text) :
  Exists (fun c => is_cont c = false) s -> 1 <= char_count s.
Proof.
  induction 1 as [c s Hc|c s _ IH]; simpl; [rewrite Hc; lia|].
  destruct (is_cont c); lia.
Qed.

Lemma accepts_upper_hex_ascii (c : ascii) :
  accepts upper_hex c = true -> is_cont c = false.
Proof.
  unfold accepts, upper_hex, in_range, is_cont. cbn [existsb fst snd xorb].
  change (nat_of_ascii "A") with 65. change (nat_of_ascii "F") with 70.
  change (nat_of_ascii "0") with 48. change (nat_of_ascii "9") with 57.
  intros H. apply andb_false_iff. left. apply Nat.leb_gt.
  rewrite orb_false_r in H.
  apply orb_true_iff in H as [H|H]; apply andb_true_iff in H as [_ H];
    apply Nat.leb_le in H; lia.
Qed.

Lemma section_position_in_range (B E subject : text) (m : match_obj) :
  Exists (fun c => is_cont c = false) B ->
  search (section_re B E) subject = Some m ->
  (0 <= m_end subject m - len (E ++ [NL]) < len subject)%Z.
Proof.
  intros HB H.
  apply search_section_Some in H as (pre & mid & post & -> & _ & Hstop).
  assert (Htake : take (m_stop m) (pre ++ B ++ mid ++ E ++ post)
                  = pre ++ B ++ mid ++ E).
  { transitivity (take (length (pre ++ B ++ mid ++ E))
                    ((pre ++ B ++ mid ++ E) ++ post)).
    - f_equal; [rewrite Hstop, !length_app; lia | rewrite <- !app_assoc; reflexivity].
    - apply take_app_length. }
  pose proof (char_count_pos _ HB) as HposB.
  unfold m_end, len. rewrite Htake, !char_count_app. simpl. lia.
Qed.

Lemma list_field_position_in_range (L F subject : text) (m : match_obj) :
  search (list_field_re L F) subject = Some m ->
  (0 < m_end_of subject m 2 < len subject)%Z.
Proof.
  intros H.
  apply search_list_field_Some in H
    as (pre & id & body & kids & post & Hrec & -> & _).
  rewrite (rec_subject _ _ _ _ _ _ _ _ _ Hrec).
  pose proof (rec_id_len _ _ _ _ _ _ _ _ _ Hrec) as Hlen.
  assert (Hid : char_count id = 24).
  { rewrite <- Hlen. apply char_count_ascii.
    eapply Forall_impl; [exact (rec_id_hex _ _ _ _ _ _ _ _ _ Hrec)|].
    intros c Hc. apply accepts_upper_hex_ascii, Hc. }
  unfold len. rewrite !char_count_app, Hid. simpl. lia.
Qed.

(** X14: wherever a search succeeds the insertion offset lies inside the
    text, so the two slices of the insertion never count from the end of the
    text and are never clamped. *)
Theorem X14_insert_positions_in_range (c : text) (m : match_obj) :
  (search file_ref_section_re c = Some m ->
   (0 <= m_end c m - 35 < len c)%Z
   /\ slice_index c (m_end c m - 35) = Z.to_nat (m_end c m - 35))
  /\ (search models_group_re c = Some m ->
      (0 < m_end_of c m 2 < len c)%Z
      /\ slice_index c (m_end_of c m 2) = Z.to_nat (m_end_of c m 2))
  /\ (search sources_build_phase_re c = Some m ->
      (0 < m_end_of c m 2 < len c)%Z
      /\ slice_index c (m_end_of c m 2) = Z.to_nat (m_end_of c m 2))
  /\ (search build_file_section_re c = Some m ->
      (0 <= m_end c m - 31 < len c)%Z
      /\ slice_index c (m_end c m - 31) = Z.to_nat (m_end c m - 31)).
Proof.
  split; [|split; [|split]]; intros H.
  - rewrite file_ref_section_re_shape in H.
    apply section_position_in_range in H; [|apply Exists_cons_hd; reflexivity].
    change (len (str "/* End PBXFileReference section */" ++ [NL])) with 35%Z in H.
    split; [exact H|]. apply slice_index_in_range. lia.
  - apply list_field_position_in_range in H.
    split; [exact H|]. apply slice_index_in_range. lia.
  - apply list_field_position_in_range in H.
    split; [exact H|]. apply slice_index_in_range. lia.
  - rewrite build_file_section_re_shape in H.
    apply section_position_in_range in H; [|apply Exists_cons_hd; reflexivity].
    change (len (str "/* End PBXBuildFile section */" ++ [NL])) with 31%Z in H.
    split; [exact H|]. apply slice_index_in_range. lia.
Qed.

Lemma X14_insert_positions_in_range_witness :
  exists m, search file_ref_section_re sample_pbxproj = Some m
            /\ (0 <= m_end sample_pbxproj m - 35 < len sample_pbxproj)%Z.
Proof.
  assert (H : exists m, search file_ref_section_re sample_pbxproj = Some m)
    by (eexists; vm_compute; reflexivity).
  destruct H as [m H]. exists m. split; [exact H|].
  exact (proj1 (proj1 (X14_insert_positions_in_range sample_pbxproj m) H)).
Defined.

(** *** The identifiers *)

Module UuidBits.
Import Uuid.
Local Open Scope N_scope.

Lemma land_ldiff_same (a b : N) : N.land (N.ldiff a b) b = 0.
Proof.
  apply N.bits_inj. intros i.
  rewrite N.land_spec, N.ldiff_spec, N.bits_0.
  destruct (N.testbit a i), (N.testbit b i); reflexivity.
Qed.

Lemma land_ldiff_swap (a b m : N) :
  N.land (N.ldiff a b) m = N.ldiff (N.land a m) b.
Proof.
  apply N.bits_inj. intros i.
  rewrite N.land_spec, !N.ldiff_spec, N.land_spec.
  destruct (N.testbit a i), (N.testbit b i), (N.testbit m i); reflexivity.
Qed.

Lemma nibble_div (n : N) (j : nat) :
  nibble n (N.of_nat j) = (n / 16 ^ N.of_nat j) mod 16.
Proof.
  unfold nibble. change 15 with (N.ones 4).
  rewrite N.land_ones, N.shiftr_div_pow2.
  change 16 with (2 ^ 4) at 1. rewrite <- N.pow_mul_r. reflexivity.
Qed.

(** The version nibble is 4. *)
Lemma uuid4_version (r : N) : nibble (uuid4_int r) 19 = 4.
Proof.
  unfold nibble, uuid4_int. cbn zeta.
  rewrite N.shiftr_lor, N.land_lor_distr_l, N.shiftr_ldiff.
  change (N.shiftr (N.shiftl 0xf000 64) (4 * 19)) with 15.
  rewrite land_ldiff_same. reflexivity.
Qed.

(** The variant nibble is 8, 9, 10 or 11. *)
Lemma uuid4_variant (r : N) :
  exists v, v < 4 /\ nibble (uuid4_int r) 15 = 8 + v.
Proof.
  unfold nibble, uuid4_int. cbn zeta.
  rewrite N.shiftr_lor, N.land_lor_distr_l.
  change (N.land (N.shiftr (N.shiftl 4 76) (4 * 15)) 15) with 0.
  rewrite N.lor_0_r, N.shiftr_ldiff, land_ldiff_swap.
  rewrite N.shiftr_lor, N.land_lor_distr_l, N.shiftr_ldiff, land_ldiff_swap.
  change (N.shiftr (N.shiftl 0xc000 48) (4 * 15)) with 12.
  change (N.land (N.shiftr (N.shiftl 0x8000 48) (4 * 15)) 15) with 8.
  change (N.shiftr (N.shiftl 0xf000 64) (4 * 15)) with 0xf0000.
  set (y := N.land (N.shiftr r (4 * 15)) 15).
  assert (Hy : y < 16).
  { unfold y. change 15 with (N.ones 4). rewrite N.land_ones.
    apply N.mod_lt. discriminate. }
  clearbody y.
  exists (y mod 4). split; [apply N.mod_lt; discriminate|].
  assert (Hcases : exists k : nat, (k < 16)%nat /\ y = N.of_nat k).
  { exists (N.to_nat y). split; [lia|]. by rewrite N2Nat.id. }
  destruct Hcases as (k & Hk & ->).
  do 16 (destruct k as [|k]; [vm_compute; reflexivity|]). lia.
Qed.

Lemma fixed_hex_rev_lookup (w j : nat) (n : N) :
  (j < w)%nat ->
  fixed_hex_rev w n !! j = Some (hex_digit ((n / 16 ^ N.of_nat j) mod 16)).
Proof.
  revert j n. induction w as [|w IH]; intros j n Hj; [lia|].
  destruct j as [|j]; simpl fixed_hex_rev.
  - simpl. by rewrite N.div_1_r.
  - change ((?x :: ?l) !! S j) with (l !! j). rewrite IH by lia.
    rewrite Nat2N.inj_succ, N.pow_succ_r', N.Div0.div_div. reflexivity.
Qed.

(** Character [i] of the token spells the nibble [31 - i] of the UUID. *)
Lemma token_lookup (r : N) (i : nat) :
  (i < 24)%nat ->
  token r !! i
  = Some (upper_char (hex_digit (nibble (uuid4_int (r mod 2 ^ 128))
                                   (N.of_nat (31 - i))))).
Proof.
  intros Hi. rewrite token_digits. unfold upper.
  change (map upper_char ?l) with (upper_char <$> l).
  rewrite list_lookup_fmap, rev_alt.
  change (rev_append ?l []) with (reverse l).
  rewrite reverse_lookup by (rewrite fixed_hex_rev_length; exact Hi).
  rewrite fixed_hex_rev_length, fixed_hex_rev_lookup by lia.
  cbn [fmap option_fmap option_map]. do 3 f_equal.
  rewrite nibble_div.
  change (2 ^ 32) with (16 ^ N.of_nat 8).
  rewrite N.Div0.div_div, <- N.pow_add_r. do 3 f_equal. lia.
Qed.

End UuidBits.

Import UuidBits.

(** X8: the token carries the marks of a version-4 UUID: its character 12 is
    4 and its character 16 is one of 8, 9, A and B, whatever the entropy
    source delivers. *)
Theorem X8_token_version_and_variant (w : World) :
  exists t, (generate_uuid w).1 = Returns t
    /\ t !! 12 = Some "4"%char
    /\ exists c, t !! 16 = Some c /\ c ∈ [ "8"; "9"; "A"; "B" ]%char.
Proof.
  eexists. split; [reflexivity|]. split.
  - rewrite token_lookup by lia.
    change (N.of_nat (31 - 12)) with 19%N. rewrite uuid4_version. reflexivity.
  - rewrite token_lookup by lia.
    change (N.of_nat (31 - 16)) with 15%N.
    destruct (uuid4_variant (entropy w (drawn w) mod 2 ^ 128)) as (v & Hv & ->).
    eexists. split; [reflexivity|].
    assert (Hcases : exists k : nat, k < 4 /\ v = N.of_nat k).
    { exists (N.to_nat v). split; [lia|]. by rewrite N2Nat.id. }
    destruct Hcases as (k & Hk & ->).
    do 4 (destruct k as [|k]; [vm_compute; set_solver|]). lia.
Qed.

Lemma is_upper_hex_accepts (c : ascii) :
  Uuid.is_upper_hex c = true -> accepts upper_hex c = true.
Proof.
  unfold Uuid.is_upper_hex, upper_hex, accepts, in_range. cbn zeta.
  cbn [existsb fst snd xorb].
  change (nat_of_ascii "A") with 65. change (nat_of_ascii "F") with 70.
  change (nat_of_ascii "0") with 48. change (nat_of_ascii "9") with 57.
  intros H. apply orb_true_iff in H as [H|H]; rewrite H.
  - rewrite orb_true_r. reflexivity.
  - reflexivity.
Qed.

(** What the identifier loop stores under a filename is a token. *)
Lemma generate_ids_tokens (files : list text) (w : World) (f : text) :
  f ∈ files ->
  exists r b,
    (drawn_ids files w).1 !! f = Some (Uuid.token r)
    /\ (drawn_ids files w).2 !! f = Some (Uuid.token b).
Proof.
  intros Hin. unfold drawn_ids.
  destruct (generate_ids_spec files ∅ ∅ w) as (fr & br & -> & _ & _ & _ & Hat).
  cbn [fst snd].
  destruct (last_occurrence files f Hin) as (k & Hk & Hlast).
  destruct (Hat k f Hk Hlast) as [-> ->]. eauto.
Qed.

Lemma generate_ids_domain (files : list text) (w : World) (f : text) :
  (is_Some ((drawn_ids files w).1 !! f) <-> f ∈ files)
  /\ (is_Some ((drawn_ids files w).2 !! f) <-> f ∈ files).
Proof.
  unfold drawn_ids.
  destruct (generate_ids_spec files ∅ ∅ w) as (fr & br & -> & Hkf & Hkb & Hout & _).
  cbn [fst snd]. split; split.
  - intros Hs. destruct (decide (f ∈ files)) as [|Hnin]; [assumption|].
    destruct (Hout f Hnin) as [E _]. rewrite E, lookup_empty in Hs.
    by destruct Hs.
  - apply Hkf.
  - intros Hs. destruct (decide (f ∈ files)) as [|Hnin]; [assumption|].
    destruct (Hout f Hnin) as [_ E]. rewrite E, lookup_empty in Hs.
    by destruct Hs.
  - apply Hkb.
Qed.

(** X15: the identifier loop never fails, and the keys of the two
    dictionaries it leaves are exactly the filenames of the list. *)
Theorem X15_dictionaries_hold_the_filenames (files : list text) (w : World)
    (f : text) :
  (is_Some ((drawn_ids files w).1 !! f) <-> f ∈ files)
  /\ (is_Some ((drawn_ids files w).2 !! f) <-> f ∈ files)
  /\ generate_ids files ∅ ∅ w
     = (Returns ((drawn_ids files w).1, (drawn_ids files w).2), after_ids files w).
Proof.
  destruct (generate_ids_domain files w f) as [H1 H2].
  split; [exact H1|]. split; [exact H2|]. apply generate_ids_returns.
Qed.

(** X16: the identifiers stored for a filename are strings of 24 characters
    of [A-F0-9]: what the script writes as an identifier is what group 1 of
    its own record patterns reads as one. *)
Theorem X16_stored_identifiers_match_pattern (files : list text) (w : World)
    (f : text) :
  f ∈ files ->
  exists file_ref build_ref,
    (drawn_ids files w).1 !! f = Some file_ref
    /\ (drawn_ids files w).2 !! f = Some build_ref
    /\ length file_ref = 24 /\ all_accepted upper_hex file_ref
    /\ length build_ref = 24 /\ all_accepted upper_hex build_ref
    /\ forall p s g,
         derives (Group 1 (Exactly 24 upper_hex))
           (MState p (file_ref ++ s) g)
           (MState (p + 24) s (<[1 := (p, p + 24)]> g)).
Proof.
  intros Hin.
  destruct (generate_ids_tokens files w f Hin) as (r & b & Hr & Hb).
  assert (Htok : forall x, all_accepted upper_hex (Uuid.token x)).
  { intros x. apply Forall_forall. intros c Hc.
    apply is_upper_hex_accepts.
    pose proof (token_upper_hex x) as Hall.
    rewrite forallb_forall in Hall. apply Hall, list_elem_of_In, Hc. }
  exists (Uuid.token r), (Uuid.token b).
  split; [exact Hr|]. split; [exact Hb|].
  split; [apply token_length|]. split; [apply Htok|].
  split; [apply token_length|]. split; [apply Htok|].
  intros p s g.
  pose proof (derives_group 1 _ _ _
                (derives_exactly upper_hex (Uuid.token r) p s g (Htok r))) as Hd.
  rewrite token_length in Hd. exact Hd.
Qed.

Lemma X16_stored_identifiers_match_pattern_witness :
  exists file_ref build_ref,
    (drawn_ids files_to_add counting_world).1 !! str "Activity.swift"
    = Some file_ref
    /\ (drawn_ids files_to_add counting_world).2 !! str "Activity.swift"
       = Some build_ref
    /\ length file_ref = 24 /\ length build_ref = 24.
Proof.
  destruct (X16_stored_identifiers_match_pattern files_to_add counting_world
              (str "Activity.swift"))
    as (r & b & Hr & Hb & Hlr & _ & Hlb & _).
  - unfold files_to_add. set_solver.
  - exists r, b. split; [exact Hr|]. split; [exact Hb|].
    split; [exact Hlr | exact Hlb].
Defined.

Lemma file_ref_line_length (id f : text) :
  length (file_ref_line id f) = length id + 2 * length f + 111.
Proof. unfold file_ref_line, str. rewrite !length_app. simpl. lia. Qed.

Lemma group_child_line_length (id f : text) :
  length (group_child_line id f) = length id + length f + 13.
Proof. unfold group_child_line, str. rewrite !length_app. simpl. lia. Qed.

Lemma build_phase_line_length (id f : text) :
  length (build_phase_line id f) = length id + length f + 24.
Proof. unfold build_phase_line, str. rewrite !length_app. simpl. lia. Qed.

Lemma build_file_line_length (b r f : text) :
  length (build_file_line b r f) = length b + length r + 2 * length f + 66.
Proof. unfold build_file_line, str. rewrite !length_app. simpl. lia. Qed.

Lemma fragments_length (files : list text) (fr br : gmap text text) :
  (forall f, f ∈ files -> length (fr !!! f) = 24 /\ length (br !!! f) = 24) ->
  length (join (new_file_refs files fr))
  + length (join (new_children files fr))
  + length (join (new_build_files files br))
  + length (join (new_pbx_build_files files fr br))
  = sum_list_with record_bytes files.
Proof.
  unfold new_file_refs, new_children, new_build_files, new_pbx_build_files, join.
  induction files as [|f fs IH]; intros Hlen; [reflexivity|].
  cbn [map concat sum_list_with]. rewrite !length_app.
  destruct (Hlen f) as [Hr Hb]; [by left|].
  rewrite file_ref_line_length, group_child_line_length,
    build_phase_line_length, build_file_line_length, Hr, Hb.
  rewrite <- IH by (intros f' Hf'; apply Hlen; by right).
  unfold record_bytes. lia.
Qed.

(** X13: a successful run writes the text it read with six times the bytes
    of the name plus 334 bytes added for every element of the list, so with
    a non-empty list the text written differs from the text read; the file
    itself grows by that much when it held no carriage return. *)
Theorem X13_descriptor_grows_by_records (path : text) (files : list text)
    (w w1 : World) (c0 c4 : text) (fr br : gmap text text) :
  (read_file path w).1 = Returns c0 ->
  generate_ids files ∅ ∅ w = (Returns (fr, br), w1) ->
  all_located files fr br w1 c0 c4 ->
  disk (add_files_to_pbxproj path files w).2 !! path = Some (File c4)
  /\ length c4 = length c0 + sum_list_with record_bytes files
  /\ (files <> [] -> c4 <> c0)
  /\ (forall bytes, disk w !! path = Some (File bytes) -> CR ∉ bytes ->
        length c4 = length bytes + sum_list_with record_bytes files).
Proof.
  intros Hread Hids Hall.
  destruct (generate_ids_world _ _ _ _ _ Hids) as (_ & Hkf & Hkb).
  assert (Hlen : length c4 = length c0 + sum_list_with record_bytes files).
  { destruct (all_located_spliced files fr br w1 c0 c4 Hkf Hkb Hall)
      as (c1 & c2 & c3 & S1 & S2 & S3 & S4).
    rewrite (spliced_length _ _ _ S4), (spliced_length _ _ _ S3).
    rewrite (spliced_length _ _ _ S2), (spliced_length _ _ _ S1).
    rewrite <- (fragments_length files fr br); [lia|].
    intros f Hf.
    rewrite (generate_ids_returns files w) in Hids. injection Hids as <- <- _.
    destruct (generate_ids_tokens files w f Hf) as (r & b & Hr & Hb).
    rewrite (lookup_total_correct _ _ _ Hr), (lookup_total_correct _ _ _ Hb).
    split; apply token_length. }
  split; [|split; [exact Hlen|split]].
  - rewrite (add_files_success _ _ _ _ _ _ _ _ Hread Hids Hall).
    unfold printed, written; cbn [snd disk]. apply lookup_insert_eq.
  - intros Hne Heq. rewrite Heq in Hlen.
    destruct files as [|f fs]; [contradiction|].
    cbn [sum_list_with] in Hlen. unfold record_bytes in Hlen. lia.
  - intros bytes Hdisk Hcr.
    destruct (read_file_File _ _ _ _ Hdisk Hread) as [_ Hc0].
    rewrite (universal_newlines_id _ Hcr) in Hc0. rewrite <- Hc0. exact Hlen.
Qed.

Lemma X13_descriptor_grows_by_records_witness :
  exists c4,
    disk (add_files_to_pbxproj pbxproj_path files_to_add
            (world_with sample_pbxproj)).2 !! pbxproj_path = Some (File c4)
    /\ length c4 = length sample_pbxproj + sum_list_with record_bytes files_to_add.
Proof.
  destruct sample_all_located as [c4 Hall].
  assert (Hread : (read_file pbxproj_path (world_with sample_pbxproj)).1
                  = Returns sample_pbxproj) by (vm_compute; reflexivity).
  destruct (X13_descriptor_grows_by_records pbxproj_path files_to_add
              (world_with sample_pbxproj) _ sample_pbxproj c4 _ _ Hread
              (generate_ids_returns files_to_add (world_with sample_pbxproj))
              Hall)
    as (Hdisk & Hlen & _).
  exists c4. split; [exact Hdisk | exact Hlen].
Defined.
